(** * ipahealthcheck.core.main: the check execution engine

    A shallow embedding of [src/ipahealthcheck/core/main.py] and the
    properties of its two-phase plugin scheduling.

    Python objects that the engine handles are embedded as follows.
    - A plugin is a record; the way its [check()] method ends is a field of
      the record, because a run invokes it at most once: phase 1 runs the
      service probes, phase 2 the other plugins.
    - Engine code runs in a writer-plus-error monad [Eng]: the written part is
      the sequence of observable events (invocations of [check()], logger
      calls, calls of the renderer), the error part is a raised exception.
    - A Python [set] of service names is a [gset string]; the order in which
      Python iterates over a set is a parameter ([SetOrder]). *)

From Stdlib Require Import String.
From stdpp Require Import base option list strings gmap sets.

Local Open Scope string_scope.
Local Open Scope list_scope.

(** ** Exceptions and the engine monad *)

(** An exception object, as far as the engine looks at it: the name of its
    class ([e.__class__.__name__]); whether it is an instance of [Exception],
    which is what every handler of the module asks ([except Exception]):
    [SystemExit], [KeyboardInterrupt] and [GeneratorExit] are exceptions that
    are not; and what [str(e)] does: it returns the text [exc_str], or, for
    an object whose [__str__] faults, it raises the exception
    [exc_str_raises] ([exc_str] is then not looked at). *)
#[local] Unset Elimination Schemes.
Inductive PyExc : Type := mkPyExc {
  exc_class : string;
  exc_str : string;
  exc_is_Exception : bool;
  exc_str_raises : option PyExc
}.
#[local] Set Elimination Schemes.

(** An instance of [Exception] or of one of its subclasses, with its text. *)
Definition mkExc (cls text : string) : PyExc := mkPyExc cls text true None.

(** An exception that is not an instance of [Exception], with its text. *)
Definition mkBaseExc (cls text : string) : PyExc :=
  mkPyExc cls text false None.

(** An instance of [Exception] whose [__str__] raises [fault]. *)
Definition mkGarbledExc (cls : string) (fault : PyExc) : PyExc :=
  mkPyExc cls "" true (Some fault).

Definition PluginId : Type := nat.

(** Modelled from the spec: the severities of [ipahealthcheck.core.constants],
    a module that is not among the sources: "severity (SUCCESS | ERROR |
    CRITICAL | one or more additional domain severities)". *)
Inductive Severity : Type :=
| SUCCESS
| ERROR
| CRITICAL
| OtherSeverity (level : nat).

#[global] Instance Severity_eq_dec : EqDecision Severity.
Proof. solve_decision. Defined.

(** Modelled from the spec: the class [ipahealthcheck.core.plugin.Result],
    which is not among the sources: "{plugin reference, severity, optional
    human message, optional fault description}".  The plugin reference is the
    identity of the plugin object; [res_msg] is the [msg=] keyword and
    [res_exception] the [exception=] keyword of the constructor. *)
Record Result : Type := mkResult {
  res_plugin : PluginId;
  severity : Severity;
  res_msg : option string;
  res_exception : option string
}.

(** Modelled from the spec: the class [ipahealthcheck.core.plugin.Results],
    which is not among the sources: "ordered sequence of Result; insertion
    order is meaningful [...]; supports append of a single Result and
    extension by another Results".  A Results has no other attribute, in
    particular no [severity]. *)
Definition Results : Type := list Result.

(** Modelled from the spec: [Results()], the empty collection. *)
Definition Results_new : Results := [].

(** Modelled from the spec: [results.add(result)], "append of a single
    Result". *)
Definition Results_add (self : Results) (result : Result) : Results :=
  self ++ [result].

(** Modelled from the spec: [results.extend(other)], "extension by another
    Results". *)
Definition Results_extend (self other : Results) : Results :=
  self ++ other.

(** What the engine can observe of a run.  A call of the logger is an event
    that carries the arguments of the call; the logger formats them on its
    own and returns. *)
Inductive Event : Type :=
| EvCheck (p : PluginId)
    (** [plugin.check()] was invoked *)
| EvDebugCalling (p : PluginId)
    (** [logger.debug('Calling check %s' % plugin)] *)
| EvDebugException (e : PyExc)
    (** [logger.debug('Exception raised: %s', e)] *)
| EvRender (results : option Results)
    (** [output.render(results)] was invoked *)
| EvErrorOutput (cls : string) (e : PyExc).
    (** [logger.error('Output raised %s: %s', e.__class__.__name__, e)] *)

Inductive Res (A : Type) : Type :=
| Ok (a : A)
| Raised (e : PyExc).
Arguments Ok {A} a.
Arguments Raised {A} e.

(** A computation of the engine: the events it emitted, and how it ended. *)
Definition Eng (A : Type) : Type := list Event * Res A.

Definition events {A} (m : Eng A) : list Event := fst m.
Definition outcome {A} (m : Eng A) : Res A := snd m.

Definition eng_ret {A} (a : A) : Eng A := ([], Ok a).

Definition eng_bind {A B} (f : A → Eng B) (m : Eng A) : Eng B :=
  match m with
  | (w, Ok a) => let '(w', r) := f a in (w ++ w', r)
  | (w, Raised e) => (w, Raised e)
  end.

#[global] Instance Eng_ret : MRet Eng := @eng_ret.
#[global] Instance Eng_bind : MBind Eng := @eng_bind.

Definition emit (ev : Event) : Eng unit := ([ev], Ok tt).
Definition raise {A} (e : PyExc) : Eng A := ([], Raised e).

(** [try: body / except Exception as e: handler e]: an exception that is
    not an instance of [Exception] passes the handler, and so does one that
    the handler raises. *)
Definition try_except {A} (body : Eng A) (handler : PyExc → Eng A) : Eng A :=
  match body with
  | (w, Ok a) => (w, Ok a)
  | (w, Raised e) =>
      if exc_is_Exception e
      then let '(w', r) := handler e in (w ++ w', r)
      else (w, Raised e)
  end.

(** [str(e)] *)
Definition py_str (e : PyExc) : Eng string :=
  match exc_str_raises e with
  | None => mret (exc_str e)
  | Some fault => raise fault
  end.

(** ** Python values returned by [check()] *)

(** The run-time type of a value, as far as [type(result)] and [isinstance]
    can tell. *)
Inductive PyType : Type :=
| Result_t
| Results_t
| ResultSub_t (cls : string)
    (** a proper subclass of [Result] *)
| ResultsSub_t (cls : string)
    (** a proper subclass of [Results] *)
| NoneType
| Other_t (cls : string).

#[global] Instance PyType_eq_dec : EqDecision PyType.
Proof. solve_decision. Defined.

Inductive PyValue : Type :=
| VResult (r : Result)
| VResults (rs : Results)
| VResultSub (cls : string) (r : Result)
| VResultsSub (cls : string) (rs : Results)
| VNone
| VOther (cls : string).

Definition type_ (v : PyValue) : PyType :=
  match v with
  | VResult _ => Result_t
  | VResults _ => Results_t
  | VResultSub cls _ => ResultSub_t cls
  | VResultsSub cls _ => ResultsSub_t cls
  | VNone => NoneType
  | VOther cls => Other_t cls
  end.

(** What [run_plugin] hands to its callers: an object whose type is exactly
    [Result] or exactly [Results]. *)
Inductive Outcome : Type :=
| OResult (r : Result)
| OResults (rs : Results).

Definition value_of (o : Outcome) : PyValue :=
  match o with
  | OResult r => VResult r
  | OResults rs => VResults rs
  end.

(** The test [type(result) in (Result, Results)], returning the value at its
    precise type when it holds. *)
Definition as_outcome (v : PyValue) : option Outcome :=
  match v with
  | VResult r => Some (OResult r)
  | VResults rs => Some (OResults rs)
  | _ => None
  end.

(** The results an outcome contributes when it is added to a collection. *)
Definition outcome_results (o : Outcome) : Results :=
  match o with
  | OResult r => [r]
  | OResults rs => rs
  end.

(** Modelled from the spec: the fault of reading [severity] from a Results,
    which has no such attribute (the class is not among the sources). *)
Definition AttributeError_severity : PyExc :=
  mkExc "AttributeError" "'Results' object has no attribute 'severity'".

(** [result.severity]: an attribute of a Result, absent from a Results. *)
Definition get_severity (o : Outcome) : Eng Severity :=
  match o with
  | OResult r => mret (severity r)
  | OResults _ => raise AttributeError_severity
  end.

(** ** Plugins *)

(** How one invocation of [check()] ends. *)
Inductive CheckOutcome : Type :=
| Returns (v : PyValue)
| Raises (e : PyExc).

(** A plugin object.  The classes of plugins are not among the sources.
    Modelled from the spec: a plugin "exposes [check() -> outcome], a
    [requires] set of service names (possibly empty), and identity metadata
    (originating module/source name, class/check name)"; a ServiceCheckable
    one "additionally exposes a [service_name]".  So [service_name] is [Some]
    exactly for the instances of [ipahealthcheck.meta.services.ServiceCheck]. *)
Record Plugin : Type := mkPlugin {
  plugin_id : PluginId;
  module_name : string;        (** [plugin.__module__] *)
  class_name : string;         (** [plugin.__class__.__name__] *)
  service_name : option string;
  requires : list string;      (** [plugin.requires] *)
  check : CheckOutcome         (** what [plugin.check()] does *)
}.

Definition isinstance_ServiceCheck (plugin : Plugin) : bool :=
  bool_decide (is_Some (service_name plugin)).

(** [Result(plugin, severity, msg=..., exception=...)] *)
Definition Result_new (plugin : Plugin) (sev : Severity)
    (msg exception : option string) : Result :=
  mkResult (plugin_id plugin) sev msg exception.

(** ** [run_plugin] (lines 34-44) *)

Definition call_check (plugin : Plugin) : Eng PyValue :=
  emit (EvCheck (plugin_id plugin));;
  match check plugin with
  | Returns v => mret v
  | Raises e => raise e
  end.

(** The second argument is whatever the caller passes: the default [()] in
    phase 1, the set of available services in phase 2. *)
Definition run_plugin {A : Type} (plugin : Plugin) (available : A)
    : Eng Outcome :=
  try_except
    (result ← call_check plugin;
     match as_outcome result with
     | Some o => mret o
     | None =>
         (* Treat no result as success *)
         mret (OResult (Result_new plugin SUCCESS None None))
     end)
    (λ e,
       emit (EvDebugException e);;
       text ← py_str e;
       mret (OResult (Result_new plugin CRITICAL None (Some text)))).

(** The exception that leaves [run_plugin] when [check()] raises [e], if one
    does: [e] itself when line 40 does not catch it, what [str(e)] raises at
    line 42 when it does. *)
Definition escaping (e : PyExc) : option PyExc :=
  if exc_is_Exception e then exc_str_raises e else Some e.

(** [run_plugin] makes a Result of the exception: it is an instance of
    [Exception] and its [str()] returns. *)
Definition becomes_Result (e : PyExc) : bool :=
  match escaping e with
  | None => true
  | Some _ => false
  end.

(** ** [source_or_check_matches] (lines 47-57) *)

(** Truth value of an optional string: [None] and [""] are false. *)
Definition truthy (s : option string) : bool :=
  match s with
  | None => false
  | Some s => negb (bool_decide (s = ""))
  end.

Definition source_or_check_matches (plugin : Plugin)
    (source check : option string) : bool :=
  if bool_decide (source ≠ None)
     && bool_decide (Some (module_name plugin) ≠ source)
  then false
  else if truthy check && bool_decide (Some (class_name plugin) ≠ check)
  then false
  else true.

(** ** Iteration *)

(** [for x in l: body], where the body updates the loop's variables [s];
    a fault in the body ends the loop. *)
Fixpoint for_each {A S : Type} (body : S → A → Eng S) (l : list A) (s : S)
    : Eng S :=
  match l with
  | [] => mret s
  | x :: l' => s' ← body s x; for_each body l' s'
  end.

(** The order in which Python iterates over a set of strings: some
    enumeration without repetition of its members. *)
Class SetOrder : Type := {
  set_iter : gset string → list string;
  set_iter_perm : ∀ X : gset string, set_iter X ≡ₚ elements X
}.

(** ** [run_service_plugins] (lines 60-87) *)

(** One turn of the loop of lines 69-85; the loop's variables are [results]
    and the list [available]. *)
Definition run_service_plugins_body (source check : option string)
    (vars : Results * list string) (plugin : Plugin)
    : Eng (Results * list string) :=
  let '(results, available) := vars in
  match service_name plugin with
  | None =>
      (* not isinstance(plugin, ServiceCheck) *)
      mret (results, available)
  | Some name =>
      if negb (source_or_check_matches plugin source check)
      then mret (results, available)
      else
        emit (EvDebugCalling (plugin_id plugin));;
        result ← run_plugin plugin tt;
        sev ← get_severity result;
        let available :=
          if bool_decide (sev = SUCCESS) then available ++ [name]
          else available in
        match result with
        | OResult r => mret (Results_add results r, available)
        | OResults rs => mret (Results_extend results rs, available)
        end
  end.

Definition run_service_plugins (plugins : list Plugin)
    (source check : option string) : Eng (Results * gset string) :=
  '(results, available) ←
    for_each (run_service_plugins_body source check) plugins (Results_new, []);
  mret (results, list_to_set available).

(** ** [run_plugins] (lines 90-119) *)

Definition not_running_msg `{SetOrder} (missing : gset string) : string :=
  String.concat ", " (set_iter missing) +:+ " service(s) not running".

(** One turn of the loop of lines 98-117. *)
Definition run_plugins_body `{SetOrder} (available : gset string)
    (source check : option string) (results : Results) (plugin : Plugin)
    : Eng Results :=
  if isinstance_ServiceCheck plugin then mret results
  else if negb (source_or_check_matches plugin source check)
  then mret results
  else
    emit (EvDebugCalling (plugin_id plugin));;
    result ←
      (if negb (bool_decide (list_to_set (requires plugin) ⊆ available))
       then
         mret (OResult (Result_new plugin ERROR
           (Some (not_running_msg (list_to_set (requires plugin) ∖ available)))
           None))
       else run_plugin plugin available);
    match result with
    | OResult r => mret (Results_add results r)
    | OResults rs => mret (Results_extend results rs)
    end.

Definition run_plugins `{SetOrder} (plugins : list Plugin)
    (available : gset string) (source check : option string) : Eng Results :=
  for_each (run_plugins_body available source check) plugins Results_new.

(** ** [main] (lines 156-192) *)

(** The command-line options the engine reads. *)
Record Options : Type := mkOptions {
  opt_source : option string;
  opt_check : option string
}.

(** An output plugin, instantiated: its [output_only] flag and how its
    [render] method ends on a given argument ([None]: it returns). *)
Record Renderer : Type := mkRenderer {
  output_only : bool;
  render : option Results → option PyExc
}.

(** Lines 181-187: the two phases, unless the renderer is output-only. *)
Definition run_checks `{SetOrder} (options : Options) (plugins : list Plugin)
    (output : Renderer) : Eng (option Results) :=
  if negb (output_only output) then
    '(results, available) ←
      run_service_plugins plugins (opt_source options) (opt_check options);
    more ← run_plugins plugins available
              (opt_source options) (opt_check options);
    mret (Some (Results_extend results more))
  else mret None.

(** [main], from the point where the options are parsed, the plugins of all
    registries are collected in [plugins] and the renderer [output] is
    chosen (lines 181-192). *)
Definition main `{SetOrder} (options : Options) (plugins : list Plugin)
    (output : Renderer) : Eng unit :=
  results ← run_checks options plugins output;
  try_except
    (emit (EvRender results);;
     match render output results with
     | None => mret tt
     | Some e => raise e
     end)
    (λ e, emit (EvErrorOutput (exc_class e) e)).

(** Number of calls of the renderer in a sequence of events. *)
Definition is_render (ev : Event) : bool :=
  match ev with EvRender _ => true | _ => false end.

Definition render_calls (evs : list Event) : nat :=
  length (filter (λ ev, is_render ev = true) evs).

(** Python's iteration order taken to be the order of [elements]. *)
Definition elements_order : SetOrder :=
  {| set_iter := elements;
     set_iter_perm := λ X : gset string, reflexivity (elements X) |}.

(** Joining what two stretches of the loop of phase 1 add to its variables. *)
Definition pair_app (s1 s2 : Results * list string) : Results * list string :=
  (s1.1 ++ s2.1, s1.2 ++ s2.2).

(** ** A sample run

    Two service probes, a dependent check that requires both services, a
    service probe that reports a collection, a check that faults, one that
    returns nothing, one that calls [sys.exit(2)] and one whose exception has
    no printable text. *)
Module Sample.

Definition svc_a : Plugin :=
  mkPlugin 1 "ipahealthcheck.meta.services" "svc_a" (Some "A") []
    (Returns (VResult (mkResult 1 SUCCESS None None))).

Definition svc_b : Plugin :=
  mkPlugin 2 "ipahealthcheck.meta.services" "svc_b" (Some "B") []
    (Returns (VResult (mkResult 2 CRITICAL None None))).

Definition dep : Plugin :=
  mkPlugin 3 "ipahealthcheck.foo.bar" "BazCheck" None ["A"; "B"]
    (Returns VNone).

Definition svc_multi : Plugin :=
  mkPlugin 4 "ipahealthcheck.meta.services" "svc_multi" (Some "C") []
    (Returns (VResults [mkResult 4 SUCCESS None None])).

Definition faulty : Plugin :=
  mkPlugin 5 "ipahealthcheck.foo.bar" "FaultyCheck" None ["A"]
    (Raises (mkExc "ValueError" "boom")).

Definition silent : Plugin :=
  mkPlugin 6 "ipahealthcheck.foo.bar" "SilentCheck" None []
    (Returns VNone).

Definition quitter : Plugin :=
  mkPlugin 11 "ipahealthcheck.foo.bar" "QuitCheck" None []
    (Raises (mkBaseExc "SystemExit" "2")).

(** [check()] raises an exception whose [__str__] raises in its turn. *)
Definition garbled : Plugin :=
  mkPlugin 12 "ipahealthcheck.foo.bar" "GarbledCheck" None []
    (Raises (mkGarbledExc "OddError" (mkExc "TypeError" "not a string"))).

Definition subclassed : Plugin :=
  mkPlugin 7 "ipahealthcheck.foo.bar" "SubCheck" None []
    (Returns (VResultSub "MyResult" (mkResult 7 ERROR (Some "bad") None))).

Definition no_filter : Options := mkOptions None None.

Definition json : Renderer := mkRenderer false (λ _, None).

Definition broken_renderer : Renderer :=
  mkRenderer false (λ _, Some (mkExc "IOError" "disk full")).

End Sample.

(** ** Which plugins a phase runs, and which checks a run invokes *)

(** The plugins for which phase 1 does not [continue] (lines 70-74). *)
Definition phase1_selects (source check : option string) (plugin : Plugin)
    : bool :=
  isinstance_ServiceCheck plugin
  && source_or_check_matches plugin source check.

(** The plugins for which phase 2 does not [continue] (lines 99-103). *)
Definition phase2_selects (source check : option string) (plugin : Plugin)
    : bool :=
  negb (isinstance_ServiceCheck plugin)
  && source_or_check_matches plugin source check.

(** The test of line 107, [set(plugin.requires).issubset(available)]. *)
Definition requirements_met (available : gset string) (plugin : Plugin)
    : bool :=
  bool_decide (list_to_set (requires plugin) ⊆ available).

(** The plugins whose [check()] was invoked, in the order of the calls. *)
Definition check_ids (evs : list Event) : list PluginId :=
  omap (λ ev, match ev with EvCheck p => Some p | _ => None end) evs.

(** ** The start of [main] (lines 156-179), with [parse_options],
    [find_registries] and [find_plugins] *)

(** What the process does, besides the events of the engine. *)
Inductive Action : Type :=
| ASetLevel (debug : bool)
    (** [logger.setLevel(logging.DEBUG)] if [debug], else [logging.INFO] *)
| APrint (line : string)
    (** [print(line)] *)
| AInitialize (name : string)
    (** [registry.initialize(framework)], for the registry found as [name] *)
| ALoad (group : string)
    (** [ep.load()], for an entry point of the group *)
| ANewOutput (name : string)
    (** [out(options)], for the output class of that lower-case name *)
| AEngine (ev : Event).

(** How a stretch of [main] ends: it goes on, it leaves the interpreter with
    a [sys.exit(status)] of [main.py] or of the parsing of the command line,
    or an exception leaves it that nothing in [main.py] catches (the
    [SystemExit] of a [sys.exit] called by a plugin, a registry or a renderer
    is such an exception). *)
Inductive Ending (A : Type) : Type :=
| Done (a : A)
| Exit (status : nat)
| Uncaught (e : PyExc).
Arguments Done {A} a.
Arguments Exit {A} status.
Arguments Uncaught {A} e.

Definition Proc (A : Type) : Type := list Action * Ending A.

Definition actions {A} (m : Proc A) : list Action := fst m.
Definition ending {A} (m : Proc A) : Ending A := snd m.

Definition proc_ret {A} (a : A) : Proc A := ([], Done a).

Definition proc_bind {A B} (f : A → Proc B) (m : Proc A) : Proc B :=
  match m with
  | (w, Done a) => let '(w', r) := f a in (w ++ w', r)
  | (w, Exit status) => (w, Exit status)
  | (w, Uncaught e) => (w, Uncaught e)
  end.

#[global] Instance Proc_ret : MRet Proc := @proc_ret.
#[global] Instance Proc_bind : MBind Proc := @proc_bind.

Definition act (a : Action) : Proc unit := ([a], Done tt).
Definition sys_exit {A} (status : nat) : Proc A := ([], Exit status).

(** A call that raises or returns, outside any [try]. *)
Definition lift_res {A} (r : Res A) : Proc A :=
  match r with
  | Ok a => ([], Done a)
  | Raised e => ([], Uncaught e)
  end.

(** The engine, run as the last part of the process. *)
Definition lift_eng {A} (m : Eng A) : Proc A :=
  (AEngine <$> events m,
   match outcome m with
   | Ok a => Done a
   | Raised e => Uncaught e
   end).

Fixpoint proc_for_each {A S : Type} (body : S → A → Proc S) (l : list A)
    (s : S) : Proc S :=
  match l with
  | [] => mret s
  | x :: l' => s' ← body s x; proc_for_each body l' s'
  end.

(** The [Namespace] that [parser.parse_args()] returns. *)
Record Namespace : Type := mkNamespace {
  ns_debug : bool;
  ns_source : option string;
  ns_check : option string;
  ns_output : string;
  ns_failures_only : bool
}.

(** The options the engine reads. *)
Definition engine_options (options : Namespace) : Options :=
  mkOptions (ns_source options) (ns_check options).

(** [parse_options] (lines 122-153).  Building the parser and parsing the
    command line (lines 123-146) is the work of [argparse]; how it ends, and
    what it prints, is the argument [parse_args]. *)
Definition parse_options (parse_args : Proc Namespace) : Proc Namespace :=
  options ← parse_args;
  (* Validation *)
  if truthy (ns_check options) && negb (truthy (ns_source options))
  then
    act (APrint "--source is required when --check is used");;
    sys_exit 1
  else mret options.

(** A registry object: how its [initialize(framework)] ends ([None]: it
    returns) and what its [get_plugins()] gives once the modules of its
    plugins are loaded.  The class is not among the sources.
    Modelled from the spec: a Registry has "[initialize(context)] (may fail
    fatally) then [enumerate() -> list of Plugin]". *)
Record Registry : Type := mkRegistry {
  initialize : option PyExc;
  get_plugins : Res (list Plugin)
}.

(** What [pkg_resources] finds: the entry points of the group
    ['ipahealthcheck.registry'], each with its name and the outcome of
    [ep.resolve()], and, for any other group, how [ep.load()] ends for each
    of its entry points ([None]: it returns). *)
Record Environment : Type := mkEnvironment {
  registry_entry_points : list (string * Res Registry);
  entry_point_loads : string → list (option PyExc)
}.

(** [d[k] = v] on a dictionary kept in insertion order: a key that is
    present keeps its place and takes the new value. *)
Fixpoint dict_set {V : Type} (d : list (string * V)) (k : string) (v : V)
    : list (string * V) :=
  match d with
  | [] => [(k, v)]
  | (k', v') :: d' =>
      if bool_decide (k' = k) then (k, v) :: d'
      else (k', v') :: dict_set d' k v
  end.

(** The dictionary comprehension of lines 21-24, entry point by entry
    point. *)
Fixpoint find_registries_from (eps : list (string * Res Registry))
    (d : list (string * Registry)) : Res (list (string * Registry)) :=
  match eps with
  | [] => Ok d
  | (name, resolved) :: eps' =>
      match resolved with
      | Ok registry => find_registries_from eps' (dict_set d name registry)
      | Raised e => Raised e
      end
  end.

(** [find_registries] (lines 20-24) *)
Definition find_registries (env : Environment)
    : Res (list (string * Registry)) :=
  find_registries_from (registry_entry_points env) [].

(** [find_plugins] (lines 27-31) *)
Definition find_plugins (env : Environment) (name : string)
    (registry : Registry) : Proc (list Plugin) :=
  proc_for_each
    (λ _ loaded,
       (* load module *)
       act (ALoad name);;
       match loaded with
       | None => mret tt
       | Some e => lift_res (Raised e)
       end)
    (entry_point_loads env name) tt;;
  lift_res (get_plugins registry).

(** One turn of the loop of lines 168-175; the loop's variable is
    [plugins]. *)
Definition collect_plugins_body (env : Environment) (plugins : list Plugin)
    (item : string * Registry) : Proc (list Plugin) :=
  let '(name, registry) := item in
  act (AInitialize name);;
  match initialize registry with
  | None => mret tt
  | Some e =>
      if exc_is_Exception e then
        (* except Exception as e *)
        match exc_str_raises e with
        | None =>
            act (APrint
                   ("Unable to initialize " +:+ name +:+ ": "
                    +:+ exc_str e));;
            sys_exit 1
        | Some fault =>
            (* the ["%s" % e] of line 172 *)
            lift_res (Raised fault)
        end
      else lift_res (Raised e)
  end;;
  found ← find_plugins env name registry;
  mret (plugins ++ found).

(** An output class of [output_registry.plugins]: its name in lower case
    ([out.__name__.lower()]) and what [out(options)] gives. *)
Record OutputClass : Type := mkOutputClass {
  out_name_lower : string;
  out_new : Namespace → Res Renderer
}.

(** The object bound to [output] at line 181: a renderer, or an object from
    which [output_only] cannot be read (the read raises [e]).  The second case
    is for [constants.DEFAULT_OUTPUT], a constant of a module that is not
    among the sources. *)
Inductive OutputObject : Type :=
| IsRenderer (r : Renderer)
| NoOutputOnly (e : PyExc).

(** One turn of the loop of lines 177-179; the loop's variable is
    [output]. *)
Definition select_output_body (options : Namespace) (output : OutputObject)
    (out : OutputClass) : Proc OutputObject :=
  if bool_decide (out_name_lower out = ns_output options) then
    act (ANewOutput (out_name_lower out));;
    r ← lift_res (out_new out options);
    mret (IsRenderer r)
  else mret output.

(** [main] from the loop over the registries on (lines 168-192), with the
    options that [parse_options] returned: [default_output] is
    [constants.DEFAULT_OUTPUT], [output_plugins] is [output_registry.plugins];
    lines 181-192 are [main] above. *)
Definition main_from_options `{SetOrder} (env : Environment)
    (default_output : OutputObject) (output_plugins : list OutputClass)
    (options : Namespace) : Proc unit :=
  registries ← lift_res (find_registries env);
  plugins ← proc_for_each (collect_plugins_body env) registries [];
  output ← proc_for_each (select_output_body options) output_plugins
             default_output;
  match output with
  | IsRenderer r => lift_eng (main (engine_options options) plugins r)
  | NoOutputOnly e => lift_res (Raised e)
  end.

(** [main] as a whole (lines 156-192). *)
Definition main_program `{SetOrder} (env : Environment)
    (default_output : OutputObject) (output_plugins : list OutputClass)
    (parse_args : Proc Namespace) : Proc unit :=
  act (ASetLevel false);;
  options ← parse_options parse_args;
  (if ns_debug options then act (ASetLevel true) else mret tt);;
  main_from_options env default_output output_plugins options.

(** The actions of the engine among the actions of a process. *)
Definition is_engine (a : Action) : bool :=
  match a with AEngine _ => true | _ => false end.

(** * Properties *)

(** Unfolds the operations of the engine monad. *)
Ltac eng_simpl :=
  cbv [mbind mret Eng_bind Eng_ret eng_bind eng_ret emit raise try_except
       events outcome];
  cbn [fst snd app].

(** ** The engine monad *)

Lemma eng_bind_ret {A B} (a : A) (f : A → Eng B) : (mret a ≫= f) = f a.
Proof.
  unfold mbind, mret, Eng_bind, Eng_ret, eng_bind, eng_ret.
  by destruct (f a).
Qed.

Lemma eng_bind_ext {A B} (m : Eng A) (f g : A → Eng B) :
  (∀ a, f a = g a) → m ≫= f = m ≫= g.
Proof.
  intros Hfg. destruct m as [w [a|e]]; [|done].
  unfold mbind, Eng_bind, eng_bind. by rewrite Hfg.
Qed.

Lemma eng_bind_assoc {A B C} (m : Eng A) (f : A → Eng B) (g : B → Eng C) :
  (m ≫= f) ≫= g = m ≫= (λ a, f a ≫= g).
Proof.
  destruct m as [w [a|e]]; [|done].
  unfold mbind, Eng_bind, eng_bind.
  destruct (f a) as [w' [b|e]]; [|done].
  destruct (g b) as [w'' r]. by rewrite app_assoc.
Qed.

(** A loop over a concatenation is the loop over the first part followed by
    the loop over the second. *)
Lemma for_each_app {A S} (body : S → A → Eng S) (l1 l2 : list A) (s : S) :
  for_each body (l1 ++ l2) s = for_each body l1 s ≫= for_each body l2.
Proof.
  revert s. induction l1 as [|x l1 IH]; intros s.
  - exact (eq_sym (eng_bind_ret s (for_each body l2))).
  - change (body s x ≫= (λ s', for_each body (l1 ++ l2) s')
            = (body s x ≫= for_each body l1) ≫= for_each body l2).
    rewrite eng_bind_assoc. by apply eng_bind_ext.
Qed.

(** ** [run_plugin] *)

Lemma as_outcome_exact (v : PyValue) (o : Outcome) :
  as_outcome v = Some o → value_of o = v.
Proof. destruct v; simpl; intros [= <-]; done. Qed.

Lemma as_outcome_type (v : PyValue) :
  is_Some (as_outcome v) ↔ type_ v = Result_t ∨ type_ v = Results_t.
Proof.
  destruct v; simpl; split; intros Hv;
    first [ by eauto | by destruct Hv as [? [=]] | by destruct Hv as [[=]|[=]] ].
Qed.

(** The two ways [run_plugin] can go, by how [check()] ends. *)
Lemma run_plugin_returns {A} (plugin : Plugin) (available : A) (v : PyValue) :
  check plugin = Returns v →
  run_plugin plugin available =
    ([EvCheck (plugin_id plugin)],
     Ok (default (OResult (Result_new plugin SUCCESS None None))
                 (as_outcome v))).
Proof.
  intros Hc. unfold run_plugin, call_check. rewrite Hc. eng_simpl.
  destruct (as_outcome v); reflexivity.
Qed.

Lemma run_plugin_raises {A} (plugin : Plugin) (available : A) (e : PyExc) :
  check plugin = Raises e →
  exc_is_Exception e = true →
  exc_str_raises e = None →
  run_plugin plugin available =
    ([EvCheck (plugin_id plugin); EvDebugException e],
     Ok (OResult (Result_new plugin CRITICAL None (Some (exc_str e))))).
Proof.
  intros Hc He Hstr. unfold run_plugin, call_check, py_str. rewrite Hc.
  unfold try_except. cbn. rewrite He, Hstr. reflexivity.
Qed.

(** An exception that is not an instance of [Exception] passes line 40. *)
Lemma run_plugin_propagates {A} (plugin : Plugin) (available : A)
    (e : PyExc) :
  check plugin = Raises e →
  exc_is_Exception e = false →
  run_plugin plugin available = ([EvCheck (plugin_id plugin)], Raised e).
Proof.
  intros Hc He. unfold run_plugin, call_check. rewrite Hc.
  unfold try_except. cbn. rewrite He. reflexivity.
Qed.

(** What [str(e)] raises at line 42 leaves the handler. *)
Lemma run_plugin_str_raises {A} (plugin : Plugin) (available : A)
    (e fault : PyExc) :
  check plugin = Raises e →
  exc_is_Exception e = true →
  exc_str_raises e = Some fault →
  run_plugin plugin available =
    ([EvCheck (plugin_id plugin); EvDebugException e], Raised fault).
Proof.
  intros Hc He Hstr. unfold run_plugin, call_check, py_str. rewrite Hc.
  unfold try_except. cbn. rewrite He, Hstr. reflexivity.
Qed.

Lemma becomes_Result_true (e : PyExc) :
  becomes_Result e = true
  ↔ exc_is_Exception e = true ∧ exc_str_raises e = None.
Proof.
  unfold becomes_Result, escaping.
  destruct (exc_is_Exception e), (exc_str_raises e); split;
    first [ done | by intros [? ?] ].
Qed.


(** [run_plugin] returns unless [check()] raises an exception that line 40
    does not catch or whose [str()] raises. *)
Lemma run_plugin_total {A} (plugin : Plugin) (available : A) :
  (∀ e, check plugin = Raises e → becomes_Result e = true) →
  ∃ o, outcome (run_plugin plugin available) = Ok o.
Proof.
  intros Hexc. destruct (check plugin) as [v|e] eqn:Hc.
  - rewrite (run_plugin_returns _ _ v Hc). eauto.
  - destruct (proj1 (becomes_Result_true e) (Hexc e eq_refl)) as [He Hstr].
    rewrite (run_plugin_raises _ _ e Hc He Hstr). eauto.
Qed.

(** The exceptions that leave [run_plugin]. *)
Lemma run_plugin_raised_iff {A} (plugin : Plugin) (available : A)
    (e : PyExc) :
  outcome (run_plugin plugin available) = Raised e
  ↔ ∃ e0, check plugin = Raises e0 ∧ escaping e0 = Some e.
Proof.
  unfold escaping. destruct (check plugin) as [v|e'] eqn:Hc.
  - rewrite (run_plugin_returns _ _ v Hc). split; [done|].
    by intros (e0 & [=] & _).
  - destruct (exc_is_Exception e') eqn:He.
    + destruct (exc_str_raises e') as [fault|] eqn:Hstr.
      * rewrite (run_plugin_str_raises _ _ e' fault Hc He Hstr). split.
        -- intros [= <-]. exists e'. by rewrite He, Hstr.
        -- intros (e0 & [= <-] & Hesc).
           rewrite He, Hstr in Hesc. by injection Hesc as ->.
      * rewrite (run_plugin_raises _ _ e' Hc He Hstr). split; [done|].
        intros (e0 & [= <-] & Hesc). by rewrite He, Hstr in Hesc.
    + rewrite (run_plugin_propagates _ _ e' Hc He). split.
      * intros [= <-]. exists e'. by rewrite He.
      * intros (e0 & [= <-] & Hesc).
        rewrite He in Hesc. by injection Hesc as ->.
Qed.

Lemma run_plugin_raised_inv {A} (plugin : Plugin) (available : A)
    (e : PyExc) :
  outcome (run_plugin plugin available) = Raised e →
  ∃ e0, check plugin = Raises e0 ∧ escaping e0 = Some e.
Proof. apply run_plugin_raised_iff. Qed.

(** C2, as amended: when [check()] raises an instance of [Exception] whose
    [str()] returns the text M, [run_plugin] returns (it does not raise), and
    what it returns is one single Result that refers to the plugin, has
    severity CRITICAL and carries M as its fault description.  An exception
    that is not an instance of [Exception] leaves [run_plugin] as it came,
    and so does what [str()] raises when it does not return. *)
Theorem run_plugin_fault_gives_critical {A} (plugin : Plugin) (available : A)
    (e : PyExc) :
  check plugin = Raises e →
  (exc_is_Exception e = true → exc_str_raises e = None →
   ∃ r : Result,
     outcome (run_plugin plugin available) = Ok (OResult r)
     ∧ res_plugin r = plugin_id plugin
     ∧ severity r = CRITICAL
     ∧ res_exception r = Some (exc_str e))
  ∧ (exc_is_Exception e = false →
     run_plugin plugin available
     = ([EvCheck (plugin_id plugin)], Raised e))
  ∧ (∀ fault, exc_is_Exception e = true → exc_str_raises e = Some fault →
     run_plugin plugin available
     = ([EvCheck (plugin_id plugin); EvDebugException e], Raised fault)).
Proof.
  intros Hc. split; [|split].
  - intros He Hstr. rewrite (run_plugin_raises _ _ e Hc He Hstr).
    eexists. split; [reflexivity|]. done.
  - intros He. by apply run_plugin_propagates.
  - intros fault He Hstr. by apply run_plugin_str_raises.
Qed.

Lemma run_plugin_fault_gives_critical_witness :
  ∃ r : Result,
    outcome (run_plugin Sample.faulty ({["A"]} : gset string))
      = Ok (OResult r)
    ∧ res_plugin r = 5
    ∧ severity r = CRITICAL
    ∧ res_exception r = Some "boom".
Proof.
  destruct (run_plugin_fault_gives_critical Sample.faulty
              ({["A"]} : gset string) (mkExc "ValueError" "boom") eq_refl)
    as [Hcaught _].
  apply Hcaught.
  - reflexivity.
  - reflexivity.
Defined.

(** C2 as it is stated fails for a [check()] that calls [sys.exit(2)]: the
    [SystemExit] is not an [Exception], no Result is made of it and it leaves
    [run_plugin]. *)
Lemma run_plugin_SystemExit_propagates :
  ¬ (∃ r : Result,
       outcome (run_plugin Sample.quitter ()) = Ok (OResult r)
       ∧ res_plugin r = 11
       ∧ severity r = CRITICAL
       ∧ res_exception r = Some "2").
Proof. by intros (r & Ho & _). Qed.

(** The same at a [check()] whose exception has a [__str__] that raises: the
    [TypeError] of [str(e)] leaves [run_plugin], after the logger's call. *)
Example run_plugin_garbled :
  run_plugin Sample.garbled ()
  = ([EvCheck 12;
      EvDebugException
        (mkGarbledExc "OddError" (mkExc "TypeError" "not a string"))],
     Raised (mkExc "TypeError" "not a string")).
Proof. reflexivity. Qed.

(** C3: when [check()] returns a value whose type is neither Result nor
    Results ([None] included), [run_plugin] returns one single SUCCESS Result
    that refers to the plugin; when the value is a Result or a Results, it is
    returned as it is. *)
Theorem run_plugin_success_or_passthrough {A} (plugin : Plugin)
    (available : A) (v : PyValue) :
  check plugin = Returns v →
  (type_ v ≠ Result_t → type_ v ≠ Results_t →
     ∃ r : Result,
       outcome (run_plugin plugin available) = Ok (OResult r)
       ∧ res_plugin r = plugin_id plugin
       ∧ severity r = SUCCESS)
  ∧ (type_ v = Result_t ∨ type_ v = Results_t →
     ∃ o : Outcome,
       outcome (run_plugin plugin available) = Ok o ∧ value_of o = v).
Proof.
  intros Hc. rewrite (run_plugin_returns _ _ v Hc). split.
  - intros H1 H2. destruct (as_outcome v) as [o|] eqn:Ho.
    + destruct (proj1 (as_outcome_type v)) as [?|?]; [by eauto|done|done].
    + eexists. split; [reflexivity|]. done.
  - intros Ht. apply as_outcome_type in Ht as [o Ho].
    exists o. rewrite Ho. split; [done|]. by apply as_outcome_exact.
Qed.

Lemma run_plugin_success_or_passthrough_witness :
  (type_ VNone ≠ Result_t → type_ VNone ≠ Results_t →
     ∃ r : Result,
       outcome (run_plugin Sample.silent ()) = Ok (OResult r)
       ∧ res_plugin r = 6
       ∧ severity r = SUCCESS)
  ∧ (type_ VNone = Result_t ∨ type_ VNone = Results_t →
     ∃ o : Outcome,
       outcome (run_plugin Sample.silent ()) = Ok o ∧ value_of o = VNone).
Proof.
  apply (run_plugin_success_or_passthrough Sample.silent () VNone).
  reflexivity.
Defined.

(** C9: the pass-through is for values whose type is exactly Result or
    Results.  An instance of a proper subclass of either is dropped, and
    [run_plugin] returns the SUCCESS Result it builds for the plugin. *)
Theorem run_plugin_drops_subclass_instance {A} (plugin : Plugin)
    (available : A) (v : PyValue) (cls : string) :
  check plugin = Returns v →
  type_ v = ResultSub_t cls ∨ type_ v = ResultsSub_t cls →
  outcome (run_plugin plugin available)
    = Ok (OResult (Result_new plugin SUCCESS None None)).
Proof.
  intros Hc Ht. rewrite (run_plugin_returns _ _ v Hc).
  by destruct Ht as [Ht|Ht]; destruct v.
Qed.

Lemma run_plugin_drops_subclass_instance_witness :
  outcome (run_plugin Sample.subclassed ())
    = Ok (OResult (mkResult 7 SUCCESS None None)).
Proof.
  apply (run_plugin_drops_subclass_instance Sample.subclassed ()
           (VResultSub "MyResult" (mkResult 7 ERROR (Some "bad") None))
           "MyResult").
  - reflexivity.
  - left. reflexivity.
Defined.

(** C10: [run_plugin] does not depend on its second argument: whatever is
    passed for it, of whatever type, the events and the outcome are the same.
    The argument does not reach [check()], which takes none. *)
Theorem run_plugin_ignores_available {A1 A2} (plugin : Plugin)
    (a1 : A1) (a2 : A2) :
  run_plugin plugin a1 = run_plugin plugin a2.
Proof. reflexivity. Qed.

(** ** [source_or_check_matches] *)

(** What the predicate decides: the source, when given, is the plugin's
    module, and the check, when given and not empty, is the plugin's class. *)
Lemma source_or_check_matches_iff (plugin : Plugin)
    (source check : option string) :
  source_or_check_matches plugin source check = true ↔
    (∀ s, source = Some s → module_name plugin = s)
    ∧ (∀ c, check = Some c → c ≠ "" → class_name plugin = c).
Proof.
  unfold source_or_check_matches, truthy.
  destruct source as [s|], check as [c|];
    repeat case_bool_decide; simpl;
    (split; [intros Hm; split; intros ? [= <-]; try congruence
            |intros [Hs Hc]; try done]).
  all: try specialize (Hs _ eq_refl); try specialize (Hc _ eq_refl);
    intuition congruence.
Qed.

(** C6, as amended: with neither a source nor a check every plugin matches; a
    given source must be the plugin's module; a given check that is not the
    empty string must be the plugin's class.  The empty string as check
    restricts nothing, like no check at all. *)
Theorem source_or_check_matches_filter (plugin : Plugin)
    (source check : option string) :
  source_or_check_matches plugin None None = true
  ∧ (∀ s, source_or_check_matches plugin (Some s) check = true →
          module_name plugin = s)
  ∧ (∀ c, c ≠ "" →
          source_or_check_matches plugin source (Some c) = true →
          class_name plugin = c)
  ∧ (∀ s, source_or_check_matches plugin (Some s) None = true ↔
          module_name plugin = s)
  ∧ source_or_check_matches plugin source (Some "")
    = source_or_check_matches plugin source None.
Proof.
  split; [done|]. split; [|split; [|split]].
  - intros s Hm. apply source_or_check_matches_iff in Hm as [Hs _]. eauto.
  - intros c Hc Hm. apply source_or_check_matches_iff in Hm as [_ Hk]. eauto.
  - intros s. rewrite source_or_check_matches_iff. split.
    + intros [Hs _]. eauto.
    + intros Hs. split; [by intros ? [= <-]|done].
  - done.
Qed.

(** C6 as it is stated fails for the empty check: the plugin of class
    [BazCheck] matches the check [""]. *)
Lemma source_or_check_matches_empty_check :
  ¬ (source_or_check_matches Sample.dep None (Some "") = true →
     class_name Sample.dep = "").
Proof. intros Hc. by specialize (Hc eq_refl). Qed.

(** ** Loops that accumulate *)

Lemma eng_bind_inv {A B} (m : Eng A) (f : A → Eng B) (b : B) :
  outcome (m ≫= f) = Ok b →
  ∃ a, outcome m = Ok a ∧ outcome (f a) = Ok b.
Proof.
  destruct m as [w [a|e]]; [|done].
  unfold mbind, Eng_bind, eng_bind, outcome. simpl.
  destruct (f a) as [w' r] eqn:Hf. simpl. intros ->.
  exists a. by rewrite Hf.
Qed.

Lemma eng_bind_events {A B} (m : Eng A) (f : A → Eng B) (a : A) :
  outcome m = Ok a → events (m ≫= f) = events m ++ events (f a).
Proof.
  destruct m as [w r]. unfold outcome. simpl. intros ->.
  unfold mbind, Eng_bind, eng_bind, events. by destruct (f a).
Qed.

Lemma eng_bind_outcome {A B} (m : Eng A) (f : A → Eng B) (a : A) :
  outcome m = Ok a → outcome (m ≫= f) = outcome (f a).
Proof.
  destruct m as [w r]. unfold outcome. simpl. intros ->.
  unfold mbind, Eng_bind, eng_bind. by destruct (f a).
Qed.

Lemma eng_bind_outcome_raised {A B} (m : Eng A) (f : A → Eng B) (e : PyExc) :
  outcome m = Raised e → m ≫= f = (events m, Raised e).
Proof. destruct m as [w r]. unfold outcome, events. simpl. by intros ->. Qed.

Section accumulate.
Context {A S : Type} (op : S → S → S) (unit : S) (body : S → A → Eng S).
Hypothesis op_assoc : ∀ s1 s2 s3, op s1 (op s2 s3) = op (op s1 s2) s3.
Hypothesis op_unit_r : ∀ s, op s unit = s.
(** A turn of the loop only adds to the loop's variables. *)
Hypothesis body_shift :
  ∀ s x, body s x = body unit x ≫= λ c, mret (op s c).

Lemma for_each_shift (l : list A) (s : S) :
  for_each body l s = for_each body l unit ≫= λ c, mret (op s c).
Proof.
  revert s. induction l as [|x l IH]; intros s.
  - change (mret s = mret unit ≫= λ c, (mret (op s c) : Eng S)).
    by rewrite eng_bind_ret, op_unit_r.
  - change (body s x ≫= for_each body l
            = (body unit x ≫= for_each body l) ≫= λ c, mret (op s c)).
    rewrite (body_shift s x), !eng_bind_assoc.
    apply eng_bind_ext. intros c.
    rewrite eng_bind_ret, (IH (op s c)), (IH c), eng_bind_assoc.
    apply eng_bind_ext. intros d.
    by rewrite eng_bind_ret, op_assoc.
Qed.

(** What the loop returns is made of what each turn adds, in the order of
    the list. *)
Lemma for_each_chunks (l : list A) (s : S) :
  outcome (for_each body l unit) = Ok s →
  ∃ chunks : list S,
    Forall2 (λ x c, outcome (body unit x) = Ok c) l chunks
    ∧ s = foldr op unit chunks.
Proof.
  revert s. induction l as [|x l IH]; intros s.
  - intros [= <-]. exists []. by split; [constructor|].
  - change (for_each body (x :: l) unit)
      with (body unit x ≫= for_each body l).
    intros (c & Hc & Hl)%eng_bind_inv.
    rewrite for_each_shift in Hl.
    apply eng_bind_inv in Hl as (d & Hd & [= <-]).
    destruct (IH d Hd) as (chunks & Hall & ->).
    exists (c :: chunks). by split; [constructor|].
Qed.

End accumulate.

(** A property of all events of all turns holds of the events of the loop. *)
Lemma for_each_events_Forall {A S} (P : Event → Prop)
    (body : S → A → Eng S) (l : list A) (s : S) :
  (∀ s x, Forall P (events (body s x))) →
  Forall P (events (for_each body l s)).
Proof.
  intros Hbody. revert s. induction l as [|x l IH]; intros s.
  - constructor.
  - change (for_each body (x :: l) s) with (body s x ≫= for_each body l).
    specialize (Hbody s x).
    destruct (body s x) as [w [s'|e]] eqn:Hb; [|done].
    rewrite (eng_bind_events (w, Ok s') _ s' eq_refl).
    apply Forall_app. split; [done|apply IH].
Qed.

(** ** Phase 1: [run_service_plugins] *)

Lemma service_body_not_service (source chk : option string)
    (vars : Results * list string) (plugin : Plugin) :
  service_name plugin = None →
  run_service_plugins_body source chk vars plugin = mret vars.
Proof.
  intros Hs. unfold run_service_plugins_body. destruct vars. by rewrite Hs.
Qed.

Lemma service_body_no_match (source chk : option string)
    (vars : Results * list string) (plugin : Plugin) :
  source_or_check_matches plugin source chk = false →
  run_service_plugins_body source chk vars plugin = mret vars.
Proof.
  intros Hm. unfold run_service_plugins_body. destruct vars.
  rewrite Hm. by destruct (service_name plugin).
Qed.

(** A turn of the loop for a service plugin that matches: a single Result is
    added and the service counted when it is a SUCCESS; on a Results the
    read of [result.severity] raises. *)
Lemma service_body_selected (source chk : option string)
    (results : Results) (available : list string) (plugin : Plugin)
    (name : string) :
  service_name plugin = Some name →
  source_or_check_matches plugin source chk = true →
  run_service_plugins_body source chk (results, available) plugin =
    (EvDebugCalling (plugin_id plugin) :: events (run_plugin plugin ()),
     match outcome (run_plugin plugin ()) with
     | Ok (OResult r) =>
         Ok (results ++ [r],
             available ++ if bool_decide (severity r = SUCCESS)
                          then [name] else [])
     | Ok (OResults _) => Raised AttributeError_severity
     | Raised e => Raised e
     end).
Proof.
  intros Hs Hm.
  unfold run_service_plugins_body, get_severity, Results_add, Results_extend.
  rewrite Hs, Hm. simpl.
  destruct (run_plugin plugin ()) as [w [[r|rs]|e]]; eng_simpl;
    rewrite ?app_nil_r; try reflexivity.
  case_bool_decide; rewrite ?app_nil_r; reflexivity.
Qed.

Lemma service_body_shift (source chk : option string)
    (vars : Results * list string) (plugin : Plugin) :
  run_service_plugins_body source chk vars plugin =
    run_service_plugins_body source chk ([], []) plugin
      ≫= λ c, mret (pair_app vars c).
Proof.
  destruct vars as [results available].
  destruct (service_name plugin) as [name|] eqn:Hs.
  - destruct (source_or_check_matches plugin source chk) eqn:Hm.
    + rewrite !(service_body_selected _ _ _ _ _ name Hs Hm).
      destruct (run_plugin plugin ()) as [w [[r|rs]|e]]; eng_simpl;
        unfold pair_app; simpl; by rewrite ?app_nil_r.
    + rewrite !(service_body_no_match _ _ _ _ Hm), eng_bind_ret.
      unfold pair_app. simpl. by rewrite !app_nil_r.
  - rewrite !(service_body_not_service _ _ _ _ Hs), eng_bind_ret.
    unfold pair_app. simpl. by rewrite !app_nil_r.
Qed.

Lemma pair_app_assoc (s1 s2 s3 : Results * list string) :
  pair_app s1 (pair_app s2 s3) = pair_app (pair_app s1 s2) s3.
Proof. unfold pair_app. simpl. by rewrite !app_assoc. Qed.

Lemma pair_app_nil_r (s : Results * list string) : pair_app s ([], []) = s.
Proof. destruct s. unfold pair_app. simpl. by rewrite !app_nil_r. Qed.

Lemma foldr_pair_app (chunks : list (Results * list string)) :
  foldr pair_app ([], []) chunks
  = (concat (fst <$> chunks), concat (snd <$> chunks)).
Proof.
  induction chunks as [|[c a] chunks IH]; [done|].
  simpl. rewrite IH. done.
Qed.

(** What one turn of phase 1 adds, read backwards. *)
Lemma service_body_inv (source chk : option string) (plugin : Plugin)
    (c : Results) (a : list string) :
  outcome (run_service_plugins_body source chk ([], []) plugin) = Ok (c, a) →
  (c = [] ∧ a = []
   ∧ (service_name plugin = None
      ∨ source_or_check_matches plugin source chk = false))
  ∨ (∃ name r,
       service_name plugin = Some name
       ∧ source_or_check_matches plugin source chk = true
       ∧ outcome (run_plugin plugin ()) = Ok (OResult r)
       ∧ c = [r]
       ∧ a = if bool_decide (severity r = SUCCESS) then [name] else []).
Proof.
  destruct (service_name plugin) as [name|] eqn:Hs.
  - destruct (source_or_check_matches plugin source chk) eqn:Hm.
    + rewrite (service_body_selected _ _ _ _ _ name Hs Hm).
      unfold outcome at 1. simpl.
      destruct (outcome (run_plugin plugin ())) as [[r|rs]|e] eqn:Ho;
        [|done|done].
      intros [= <- <-]. right. exists name, r. done.
    + rewrite (service_body_no_match _ _ _ _ Hm). intros [= <- <-].
      left. eauto.
  - rewrite (service_body_not_service _ _ _ _ Hs). intros [= <- <-].
    left. eauto.
Qed.

(** Phase 1 on the whole list, from its turns. *)
Lemma run_service_plugins_chunks (plugins : list Plugin)
    (source chk : option string) (r1 : Results) (avail : gset string) :
  outcome (run_service_plugins plugins source chk) = Ok (r1, avail) →
  ∃ chunks : list (Results * list string),
    Forall2 (λ p c,
      outcome (run_service_plugins_body source chk ([], []) p) = Ok c)
      plugins chunks
    ∧ r1 = concat (fst <$> chunks)
    ∧ avail = list_to_set (concat (snd <$> chunks)).
Proof.
  unfold run_service_plugins.
  intros ([results available] & Hloop & [= <- <-])%eng_bind_inv.
  apply (for_each_chunks pair_app) in Hloop
    as (chunks & Hall & Heq);
    [|apply pair_app_assoc|apply pair_app_nil_r|apply service_body_shift].
  exists chunks. rewrite foldr_pair_app in Heq. by injection Heq as -> ->.
Qed.

(** Phase 1 on a single plugin is one turn of the loop. *)
Lemma run_service_plugins_single (plugin : Plugin)
    (source chk : option string) (c : Results) (a : list string) :
  outcome (run_service_plugins_body source chk ([], []) plugin) = Ok (c, a) →
  outcome (run_service_plugins [plugin] source chk) = Ok (c, list_to_set a).
Proof.
  intros Hb. unfold run_service_plugins, for_each, Results_new.
  rewrite (eng_bind_outcome _ _ (c, a)); [done|].
  by rewrite (eng_bind_outcome _ _ (c, a) Hb).
Qed.

(** A fault that leaves a turn of phase 1 is the [AttributeError] of
    [result.severity], or an exception that left [run_plugin]. *)
Lemma service_body_raised (source chk : option string)
    (vars : Results * list string) (plugin : Plugin) (e : PyExc) :
  outcome (run_service_plugins_body source chk vars plugin) = Raised e →
  e = AttributeError_severity
  ∨ (∃ e0, check plugin = Raises e0 ∧ escaping e0 = Some e).
Proof.
  destruct vars as [results available].
  destruct (service_name plugin) as [name|] eqn:Hs.
  - destruct (source_or_check_matches plugin source chk) eqn:Hm.
    + rewrite (service_body_selected _ _ _ _ _ name Hs Hm).
      unfold outcome at 1. simpl.
      destruct (outcome (run_plugin plugin ())) as [[r|rs]|e'] eqn:Ho.
      * done.
      * intros [= <-]. by left.
      * intros [= <-]. right. by apply run_plugin_raised_inv in Ho.
    + by rewrite (service_body_no_match _ _ _ _ Hm).
  - by rewrite (service_body_not_service _ _ _ _ Hs).
Qed.

Lemma service_body_Results (source chk : option string)
    (vars : Results * list string) (plugin : Plugin) (name : string)
    (rs : Results) :
  service_name plugin = Some name →
  source_or_check_matches plugin source chk = true →
  check plugin = Returns (VResults rs) →
  run_service_plugins_body source chk vars plugin
  = ([EvDebugCalling (plugin_id plugin); EvCheck (plugin_id plugin)],
     Raised AttributeError_severity).
Proof.
  intros Hs Hm Hc. destruct vars as [results available].
  rewrite (service_body_selected _ _ _ _ _ name Hs Hm).
  by rewrite (run_plugin_returns _ _ _ Hc).
Qed.

Lemma for_each_raised_inv {A S} (body : S → A → Eng S) (l : list A) (s : S)
    (e : PyExc) :
  outcome (for_each body l s) = Raised e →
  ∃ s' x, x ∈ l ∧ outcome (body s' x) = Raised e.
Proof.
  revert s. induction l as [|x l IH]; intros s; [done|].
  change (for_each body (x :: l) s) with (body s x ≫= for_each body l).
  destruct (outcome (body s x)) as [s1|e1] eqn:Hx.
  - rewrite (eng_bind_outcome _ _ s1 Hx). intros (s' & y & Hy & He)%IH.
    exists s', y. split; [by right|done].
  - rewrite (eng_bind_outcome_raised _ _ e1 Hx). intros [= <-].
    exists s, x. split; [by left|done].
Qed.

Lemma run_service_plugins_raised (plugins : list Plugin)
    (source chk : option string) (e : PyExc) :
  outcome (run_service_plugins plugins source chk) = Raised e →
  e = AttributeError_severity
  ∨ ∃ p e0, p ∈ plugins ∧ check p = Raises e0 ∧ escaping e0 = Some e.
Proof.
  unfold run_service_plugins.
  destruct (outcome (for_each (run_service_plugins_body source chk) plugins
                       (Results_new, []))) as [[results available]|e1] eqn:Hl.
  - by rewrite (eng_bind_outcome _ _ _ Hl).
  - rewrite (eng_bind_outcome_raised _ _ e1 Hl). intros [= <-].
    apply for_each_raised_inv in Hl as (vars & p & Hin & Hp).
    apply service_body_raised in Hp as [->|(e0 & Hc & Hesc)]; [by left|].
    right. by exists p, e0.
Qed.

(** Phase 1 does not return when a service plugin that matches reports a
    Results. *)
Lemma run_service_plugins_no_return (plugins : list Plugin)
    (source chk : option string) (plugin : Plugin) (name : string)
    (rs : Results) :
  plugin ∈ plugins →
  service_name plugin = Some name →
  source_or_check_matches plugin source chk = true →
  check plugin = Returns (VResults rs) →
  ∃ e, outcome (run_service_plugins plugins source chk) = Raised e.
Proof.
  intros Hin Hs Hm Hc.
  assert (∀ vars, ∃ e,
    outcome (for_each (run_service_plugins_body source chk) plugins vars)
    = Raised e) as Hloop.
  { induction plugins as [|x plugins IH]; intros vars.
    - by apply elem_of_nil in Hin.
    - change (for_each (run_service_plugins_body source chk) (x :: plugins)
                vars)
        with (run_service_plugins_body source chk vars x
              ≫= for_each (run_service_plugins_body source chk) plugins).
      destruct (outcome (run_service_plugins_body source chk vars x))
        as [vars'|e] eqn:Hx.
      + rewrite (eng_bind_outcome _ _ vars' Hx).
        apply elem_of_cons in Hin as [->|Hin]; [|by apply IH].
        by rewrite (service_body_Results _ _ _ _ name rs Hs Hm Hc) in Hx.
      + rewrite (eng_bind_outcome_raised _ _ e Hx). by exists e. }
  unfold run_service_plugins. destruct (Hloop (Results_new, [])) as [e He].
  exists e. by rewrite (eng_bind_outcome_raised _ _ _ He).
Qed.

(** With [check()] methods whose exceptions [run_plugin] makes Results of,
    the fault is the [AttributeError] of line 79. *)
Lemma run_service_plugins_faults (plugins : list Plugin)
    (source chk : option string) (plugin : Plugin) (name : string)
    (rs : Results) :
  plugin ∈ plugins →
  service_name plugin = Some name →
  source_or_check_matches plugin source chk = true →
  check plugin = Returns (VResults rs) →
  (∀ p e, p ∈ plugins → check p = Raises e → becomes_Result e = true) →
  outcome (run_service_plugins plugins source chk)
  = Raised AttributeError_severity.
Proof.
  intros Hin Hs Hm Hc Hexc.
  destruct (run_service_plugins_no_return _ _ _ _ _ _ Hin Hs Hm Hc)
    as [e He].
  rewrite He. f_equal.
  apply run_service_plugins_raised in He as [->|(p & e0 & Hp & Hpc & Hpe)];
    [done|].
  specialize (Hexc p e0 Hp Hpc). unfold becomes_Result in Hexc.
  by rewrite Hpe in Hexc.
Qed.


Lemma for_each_total_in {A S} (body : S → A → Eng S) (l : list A) (s : S) :
  (∀ s x, x ∈ l → ∃ s', outcome (body s x) = Ok s') →
  ∃ s', outcome (for_each body l s) = Ok s'.
Proof.
  revert s. induction l as [|x l IH]; intros s Hbody.
  - by eexists.
  - destruct (Hbody s x) as [s1 Hs1]; [by left|].
    destruct (IH s1) as [s2 Hs2].
    { intros s' y Hy. apply Hbody. by right. }
    exists s2.
    change (for_each body (x :: l) s) with (body s x ≫= for_each body l).
    by rewrite (eng_bind_outcome _ _ s1 Hs1).
Qed.


(** The services phase 1 reports as available. *)
Lemma chunks_available (plugins : list Plugin) (source chk : option string)
    (chunks : list (Results * list string)) (s : string) :
  Forall2 (λ p c,
    outcome (run_service_plugins_body source chk ([], []) p) = Ok c)
    plugins chunks →
  s ∈ concat (snd <$> chunks) ↔
    ∃ p r, p ∈ plugins
      ∧ service_name p = Some s
      ∧ source_or_check_matches p source chk = true
      ∧ outcome (run_plugin p ()) = Ok (OResult r)
      ∧ severity r = SUCCESS.
Proof.
  induction 1 as [|p [c a] plugins chunks Hp Hall IH].
  - split; [by intros ?%elem_of_nil|].
    by intros (p & r & ?%elem_of_nil & _).
  - simpl. rewrite elem_of_app, IH. clear IH. split.
    + intros [Ha|(q & r & Hq & Hrest)].
      * apply service_body_inv in Hp
          as [(_ & -> & _)|(name & r & Hs & Hm & Ho & _ & ->)].
        { by apply elem_of_nil in Ha. }
        case_bool_decide as Hsev; [|by apply elem_of_nil in Ha].
        apply list_elem_of_singleton in Ha as ->.
        exists p, r. split; [by left|done].
      * exists q, r. split; [by right|done].
    + intros (q & r & Hq & Hs & Hm & Ho & Hsev).
      apply elem_of_cons in Hq as [->|Hq]; [|right; by exists q, r].
      left. apply service_body_inv in Hp
        as [(_ & _ & [Hn|Hn])|(name & r' & Hs' & _ & Ho' & _ & ->)];
        [congruence|congruence|].
      rewrite Ho in Ho'. injection Ho' as <-.
      rewrite Hs in Hs'. injection Hs' as <-.
      rewrite bool_decide_eq_true_2 by done. by left.
Qed.

(** ** Phase 2: [run_plugins] *)

Lemma set_iter_NoDup `{SetOrder} (X : gset string) : NoDup (set_iter X).
Proof. rewrite set_iter_perm. apply NoDup_elements. Qed.

Lemma elem_of_set_iter `{SetOrder} (X : gset string) (s : string) :
  s ∈ set_iter X ↔ s ∈ X.
Proof. rewrite set_iter_perm. apply elem_of_elements. Qed.

Lemma set_iter_singleton `{SetOrder} (s : string) : set_iter {[ s ]} = [s].
Proof.
  apply Permutation_singleton_r.
  by rewrite set_iter_perm, elements_singleton.
Qed.

Lemma missing_empty_iff (X available : gset string) :
  X ∖ available = ∅ ↔ X ⊆ available.
Proof.
  split.
  - intros He x Hx. destruct (decide (x ∈ available)) as [|Hn]; [done|].
    assert (x ∈ X ∖ available) as Hd by by apply elem_of_difference.
    rewrite He in Hd. by apply not_elem_of_empty in Hd.
  - intros Hsub. apply set_eq. intros x.
    rewrite elem_of_difference, elem_of_empty. split; [|done].
    intros [Hx Hn]. apply Hn, Hsub, Hx.
Qed.

Lemma plugins_body_service `{SetOrder} (available : gset string)
    (source chk : option string) (results : Results) (plugin : Plugin) :
  isinstance_ServiceCheck plugin = true →
  run_plugins_body available source chk results plugin = mret results.
Proof. intros Hs. unfold run_plugins_body. by rewrite Hs. Qed.

Lemma plugins_body_no_match `{SetOrder} (available : gset string)
    (source chk : option string) (results : Results) (plugin : Plugin) :
  source_or_check_matches plugin source chk = false →
  run_plugins_body available source chk results plugin = mret results.
Proof.
  intros Hm. unfold run_plugins_body. rewrite Hm.
  by destruct (isinstance_ServiceCheck plugin).
Qed.

(** A requirement is not met: [check()] is not invoked, an ERROR Result is
    added. *)
Lemma plugins_body_gated `{SetOrder} (available : gset string)
    (source chk : option string) (results : Results) (plugin : Plugin) :
  isinstance_ServiceCheck plugin = false →
  source_or_check_matches plugin source chk = true →
  list_to_set (requires plugin) ∖ available ≠ (∅ : gset string) →
  run_plugins_body available source chk results plugin
  = ([EvDebugCalling (plugin_id plugin)],
     Ok (results ++
         [Result_new plugin ERROR
            (Some (not_running_msg
                     (list_to_set (requires plugin) ∖ available)))
            None])).
Proof.
  intros Hs Hm Hmiss. unfold run_plugins_body. rewrite Hs, Hm. simpl.
  rewrite bool_decide_eq_false_2 by by rewrite <-missing_empty_iff.
  reflexivity.
Qed.

(** All requirements are met: the plugin is run. *)
Lemma plugins_body_run `{SetOrder} (available : gset string)
    (source chk : option string) (results : Results) (plugin : Plugin) :
  isinstance_ServiceCheck plugin = false →
  source_or_check_matches plugin source chk = true →
  list_to_set (requires plugin) ∖ available = (∅ : gset string) →
  run_plugins_body available source chk results plugin
  = (emit (EvDebugCalling (plugin_id plugin));;
     result ← run_plugin plugin available;
     mret (results ++ outcome_results result)).
Proof.
  intros Hs Hm Hmiss. unfold run_plugins_body. rewrite Hs, Hm.
  rewrite bool_decide_eq_true_2 by by rewrite <-missing_empty_iff.
  cbn [negb]. apply eng_bind_ext. intros _. apply eng_bind_ext.
  by intros [r|rs].
Qed.

Lemma plugins_body_total `{SetOrder} (available : gset string)
    (source chk : option string) (results : Results) (plugin : Plugin) :
  (∀ e, check plugin = Raises e → becomes_Result e = true) →
  ∃ results',
    outcome (run_plugins_body available source chk results plugin)
    = Ok results'.
Proof.
  intros Hexc. destruct (isinstance_ServiceCheck plugin) eqn:Hs.
  { rewrite (plugins_body_service _ _ _ _ _ Hs). by eexists. }
  destruct (source_or_check_matches plugin source chk) eqn:Hm.
  2: { rewrite (plugins_body_no_match _ _ _ _ _ Hm). by eexists. }
  destruct (decide (list_to_set (requires plugin) ∖ available
                    = (∅ : gset string))) as [Hmiss|Hmiss].
  - rewrite (plugins_body_run _ _ _ _ _ Hs Hm Hmiss).
    destruct (run_plugin_total plugin available Hexc) as [o Ho].
    rewrite (eng_bind_outcome (emit _) _ () eq_refl).
    rewrite (eng_bind_outcome _ _ o Ho). by eexists.
  - rewrite (plugins_body_gated _ _ _ _ _ Hs Hm Hmiss). by eexists.
Qed.


Lemma plugins_body_shift `{SetOrder} (available : gset string)
    (source chk : option string) (results : Results) (plugin : Plugin) :
  run_plugins_body available source chk results plugin
  = run_plugins_body available source chk [] plugin
      ≫= λ c, mret (results ++ c).
Proof.
  destruct (isinstance_ServiceCheck plugin) eqn:Hs.
  { rewrite (plugins_body_service _ _ _ results _ Hs).
    rewrite (plugins_body_service _ _ _ [] _ Hs), eng_bind_ret.
    by rewrite app_nil_r. }
  destruct (source_or_check_matches plugin source chk) eqn:Hm.
  2: { rewrite (plugins_body_no_match _ _ _ results _ Hm).
       rewrite (plugins_body_no_match _ _ _ [] _ Hm), eng_bind_ret.
       by rewrite app_nil_r. }
  destruct (decide (list_to_set (requires plugin) ∖ available
                    = (∅ : gset string))) as [Hmiss|Hmiss].
  - rewrite (plugins_body_run _ _ _ results _ Hs Hm Hmiss).
    rewrite (plugins_body_run _ _ _ [] _ Hs Hm Hmiss), eng_bind_assoc.
    apply eng_bind_ext. intros _. rewrite eng_bind_assoc.
    apply eng_bind_ext. intros o. by rewrite eng_bind_ret.
  - rewrite (plugins_body_gated _ _ _ results _ Hs Hm Hmiss).
    by rewrite (plugins_body_gated _ _ _ [] _ Hs Hm Hmiss).
Qed.

(** Phase 2 returns when [run_plugin] makes a Result of every exception that
    a [check()] raises. *)
Lemma run_plugins_total `{SetOrder} (plugins : list Plugin)
    (available : gset string) (source chk : option string) :
  (∀ p e, p ∈ plugins → check p = Raises e → becomes_Result e = true) →
  ∃ r2, outcome (run_plugins plugins available source chk) = Ok r2.
Proof.
  intros Hexc. apply for_each_total_in. intros results p Hp.
  apply plugins_body_total. intros e. by apply Hexc.
Qed.


Lemma foldr_app_concat {A} (chunks : list (list A)) :
  foldr app [] chunks = concat chunks.
Proof. induction chunks as [|c chunks IH]; [done|]. simpl. by rewrite IH. Qed.

Lemma eng_bind_ret_r {A} (m : Eng A) : m ≫= mret = m.
Proof.
  destruct m as [w [a|e]]; [|done].
  unfold mbind, mret, Eng_bind, Eng_ret, eng_bind, eng_ret.
  by rewrite app_nil_r.
Qed.

(** Phase 2 on the whole list, from the plugins taken one at a time. *)
Lemma run_plugins_chunks `{SetOrder} (plugins : list Plugin)
    (available : gset string) (source chk : option string) (r2 : Results) :
  outcome (run_plugins plugins available source chk) = Ok r2 →
  ∃ chunks : list Results,
    Forall2 (λ p c,
      outcome (run_plugins [p] available source chk) = Ok c) plugins chunks
    ∧ r2 = concat chunks.
Proof.
  unfold run_plugins, Results_new. intros Hloop.
  apply (for_each_chunks app) in Hloop as (chunks & Hall & ->);
    [|intros; apply app_assoc|apply app_nil_r|apply plugins_body_shift].
  exists chunks. split; [|apply foldr_app_concat].
  eapply Forall2_impl; [exact Hall|].
  intros p c Hp. simpl. by rewrite eng_bind_ret_r.
Qed.

(** The place of one plugin in phase 2: the plugins before it are done, then
    its turn, then the plugins after it. *)
Lemma run_plugins_turn `{SetOrder} (before after : list Plugin)
    (plugin : Plugin) (available : gset string) (source chk : option string) :
  run_plugins (before ++ plugin :: after) available source chk
  = (results ← run_plugins before available source chk;
     results' ← run_plugins_body available source chk results plugin;
     for_each (run_plugins_body available source chk) after results').
Proof. unfold run_plugins. by rewrite for_each_app. Qed.

(** ** Both phases and the hand-over to the renderer *)


Lemma run_checks_phase1_raised `{SetOrder} (options : Options)
    (plugins : list Plugin) (output : Renderer) (e : PyExc) :
  output_only output = false →
  outcome (run_service_plugins plugins (opt_source options)
             (opt_check options)) = Raised e →
  run_checks options plugins output
  = (events (run_service_plugins plugins (opt_source options)
               (opt_check options)),
     Raised e).
Proof.
  intros Ho He. unfold run_checks. rewrite Ho. cbn [negb].
  by rewrite (eng_bind_outcome_raised _ _ e He).
Qed.

Lemma run_checks_phases `{SetOrder} (options : Options)
    (plugins : list Plugin) (output : Renderer) (r1 r2 : Results)
    (avail : gset string) :
  output_only output = false →
  outcome (run_service_plugins plugins (opt_source options)
             (opt_check options)) = Ok (r1, avail) →
  outcome (run_plugins plugins avail (opt_source options)
             (opt_check options)) = Ok r2 →
  run_checks options plugins output
  = (events (run_service_plugins plugins (opt_source options)
               (opt_check options))
     ++ events (run_plugins plugins avail (opt_source options)
                  (opt_check options)),
     Ok (Some (r1 ++ r2))).
Proof.
  intros Ho H1 H2. unfold run_checks. rewrite Ho. cbn [negb].
  destruct (run_service_plugins _ _ _) as [w1 o1].
  unfold outcome in H1. simpl in H1. subst o1. eng_simpl.
  destruct (run_plugins _ _ _ _) as [w2 o2].
  unfold outcome in H2. simpl in H2. subst o2.
  by rewrite app_nil_r.
Qed.

Lemma run_checks_after_phase1 `{SetOrder} (options : Options)
    (plugins : list Plugin) (output : Renderer) (r1 : Results)
    (avail : gset string) :
  output_only output = false →
  outcome (run_service_plugins plugins (opt_source options)
             (opt_check options)) = Ok (r1, avail) →
  run_checks options plugins output
  = (events (run_service_plugins plugins (opt_source options)
               (opt_check options))
     ++ events (run_plugins plugins avail (opt_source options)
                  (opt_check options)),
     match outcome (run_plugins plugins avail (opt_source options)
                      (opt_check options)) with
     | Ok r2 => Ok (Some (r1 ++ r2))
     | Raised e => Raised e
     end).
Proof.
  intros Ho H1. unfold run_checks. rewrite Ho. cbn [negb].
  destruct (run_service_plugins _ _ _) as [w1 o1].
  unfold outcome in H1. simpl in H1. subst o1. eng_simpl.
  destruct (run_plugins _ _ _ _) as [w2 [r2|e]]; [|done].
  by rewrite app_nil_r.
Qed.

Lemma main_after_checks `{SetOrder} (options : Options)
    (plugins : list Plugin) (output : Renderer) (res : option Results) :
  outcome (run_checks options plugins output) = Ok res →
  main options plugins output
  = (events (run_checks options plugins output)
     ++ EvRender res
        :: match render output res with
           | None => []
           | Some e =>
               if exc_is_Exception e
               then [EvErrorOutput (exc_class e) e]
               else []
           end,
     match render output res with
     | None => Ok ()
     | Some e => if exc_is_Exception e then Ok () else Raised e
     end).
Proof.
  intros Hc. unfold main.
  destruct (run_checks options plugins output) as [w o].
  unfold outcome in Hc. simpl in Hc. subst o. eng_simpl.
  destruct (render output res) as [e|]; [|reflexivity].
  destruct (exc_is_Exception e); reflexivity.
Qed.

Lemma main_checks_raised `{SetOrder} (options : Options)
    (plugins : list Plugin) (output : Renderer) (e : PyExc) :
  outcome (run_checks options plugins output) = Raised e →
  main options plugins output
  = (events (run_checks options plugins output), Raised e).
Proof.
  intros Hc. unfold main. by rewrite (eng_bind_outcome_raised _ _ e Hc).
Qed.

(** *** The renderer is not called from within the phases *)

Lemma eng_bind_events_Forall {A B} (P : Event → Prop) (m : Eng A)
    (f : A → Eng B) :
  Forall P (events m) →
  (∀ a, Forall P (events (f a))) →
  Forall P (events (m ≫= f)).
Proof.
  intros Hm Hf. destruct m as [w [a|e]]; [|done].
  rewrite (eng_bind_events (w, Ok a) _ a eq_refl).
  apply Forall_app. by split.
Qed.

Lemma run_plugin_events_no_render {A} (plugin : Plugin) (available : A) :
  Forall (λ ev, is_render ev = false) (events (run_plugin plugin available)).
Proof.
  destruct (check plugin) as [v|e] eqn:Hc.
  - rewrite (run_plugin_returns _ _ v Hc). by repeat constructor.
  - destruct (exc_is_Exception e) eqn:He.
    + destruct (exc_str_raises e) as [fault|] eqn:Hstr.
      * rewrite (run_plugin_str_raises _ _ e fault Hc He Hstr).
        by repeat constructor.
      * rewrite (run_plugin_raises _ _ e Hc He Hstr). by repeat constructor.
    + rewrite (run_plugin_propagates _ _ e Hc He). by repeat constructor.
Qed.

Lemma run_service_plugins_no_render (plugins : list Plugin)
    (source chk : option string) :
  Forall (λ ev, is_render ev = false)
    (events (run_service_plugins plugins source chk)).
Proof.
  unfold run_service_plugins. apply eng_bind_events_Forall.
  - apply for_each_events_Forall. intros [results available] p.
    destruct (service_name p) as [name|] eqn:Hs.
    + destruct (source_or_check_matches p source chk) eqn:Hm.
      * rewrite (service_body_selected _ _ _ _ _ name Hs Hm).
        constructor; [done|]. apply run_plugin_events_no_render.
      * rewrite (service_body_no_match _ _ _ _ Hm). constructor.
    + rewrite (service_body_not_service _ _ _ _ Hs). constructor.
  - intros [results available]. constructor.
Qed.

Lemma run_plugins_no_render `{SetOrder} (plugins : list Plugin)
    (available : gset string) (source chk : option string) :
  Forall (λ ev, is_render ev = false)
    (events (run_plugins plugins available source chk)).
Proof.
  apply for_each_events_Forall. intros results p.
  destruct (isinstance_ServiceCheck p) eqn:Hs.
  { rewrite (plugins_body_service _ _ _ _ _ Hs). constructor. }
  destruct (source_or_check_matches p source chk) eqn:Hm.
  2: { rewrite (plugins_body_no_match _ _ _ _ _ Hm). constructor. }
  destruct (decide (list_to_set (requires p) ∖ available
                    = (∅ : gset string))) as [Hmiss|Hmiss].
  - rewrite (plugins_body_run _ _ _ _ _ Hs Hm Hmiss).
    apply eng_bind_events_Forall; [by repeat constructor|]. intros _.
    apply eng_bind_events_Forall; [apply run_plugin_events_no_render|].
    intros o. constructor.
  - rewrite (plugins_body_gated _ _ _ _ _ Hs Hm Hmiss).
    by repeat constructor.
Qed.

Lemma run_checks_no_render `{SetOrder} (options : Options)
    (plugins : list Plugin) (output : Renderer) :
  Forall (λ ev, is_render ev = false)
    (events (run_checks options plugins output)).
Proof.
  unfold run_checks. destruct (output_only output); [constructor|].
  cbn [negb]. apply eng_bind_events_Forall.
  - apply run_service_plugins_no_render.
  - intros [results available]. apply eng_bind_events_Forall.
    + apply run_plugins_no_render.
    + intros more. constructor.
Qed.

Lemma render_calls_app (w1 w2 : list Event) :
  render_calls (w1 ++ w2) = render_calls w1 + render_calls w2.
Proof. unfold render_calls. by rewrite filter_app, length_app. Qed.

Lemma render_calls_none (w : list Event) :
  Forall (λ ev, is_render ev = false) w → render_calls w = 0.
Proof.
  unfold render_calls. induction 1 as [|ev w Hev Hw IH]; [done|].
  rewrite filter_cons_False by by rewrite Hev. exact IH.
Qed.

(** When the phases end without a fault, the renderer is called once, with
    what they return, and [main] returns unless [render] raises outside
    [Exception]. *)
Lemma main_renders_once `{SetOrder} (options : Options)
    (plugins : list Plugin) (output : Renderer) (res : option Results) :
  outcome (run_checks options plugins output) = Ok res →
  ((∀ e, render output res = Some e → exc_is_Exception e = true) →
   outcome (main options plugins output) = Ok ())
  ∧ render_calls (events (main options plugins output)) = 1
  ∧ EvRender res ∈ events (main options plugins output).
Proof.
  intros Hc. rewrite (main_after_checks _ _ _ _ Hc). split; [|split].
  - intros Hexc. unfold outcome. cbn [snd].
    destruct (render output res) as [e|]; [|done].
    by rewrite (Hexc e eq_refl).
  - unfold events at 1. cbn [fst].
    rewrite render_calls_app,
      (render_calls_none _ (run_checks_no_render _ _ _)).
    destruct (render output res) as [e|]; [|done].
    by destruct (exc_is_Exception e).
  - unfold events at 1. cbn [fst]. apply elem_of_app. right. by left.
Qed.


(** A renderer that faults: the fault is logged and [main] returns. *)
Example main_render_fault_contained :
  @main elements_order Sample.no_filter [Sample.svc_a; Sample.faulty]
    Sample.broken_renderer
  = ([EvDebugCalling 1; EvCheck 1;
      EvDebugCalling 5; EvCheck 5;
      EvDebugException (mkExc "ValueError" "boom");
      EvRender (Some [mkResult 1 SUCCESS None None;
                      mkResult 5 CRITICAL None (Some "boom")]);
      EvErrorOutput "IOError" (mkExc "IOError" "disk full")],
     Ok ()).
Proof. vm_compute. reflexivity. Qed.

(** ** The claims on the two phases *)

(** C4: when the checks are run, phase 1 returns its Results [r1] and its
    set of available services, and phase 2 returns its Results [r2], the
    Results of the run, handed to the renderer, are [r1] followed by [r2], and
    each of [r1] and [r2] is made, in the order of the plugin list, of what
    each plugin yields when the phase is run on it alone: nothing is moved,
    merged or sorted.  Phase 2 does return when [run_plugin] makes a Result
    of every exception that a [check()] raises (an instance of [Exception]
    whose [str()] returns). *)
Theorem aggregated_results_order `{SetOrder} (options : Options)
    (plugins : list Plugin) (output : Renderer) (r1 : Results)
    (avail : gset string) :
  output_only output = false →
  outcome (run_service_plugins plugins (opt_source options)
             (opt_check options)) = Ok (r1, avail) →
  (∀ r2 : Results,
     outcome (run_plugins plugins avail (opt_source options)
                (opt_check options)) = Ok r2 →
     outcome (run_checks options plugins output) = Ok (Some (r1 ++ r2))
     ∧ EvRender (Some (r1 ++ r2)) ∈ events (main options plugins output)
     ∧ (∃ chunks1 : list Results,
          Forall2 (λ p c, ∃ a,
            outcome (run_service_plugins [p] (opt_source options)
                       (opt_check options)) = Ok (c, a)) plugins chunks1
          ∧ r1 = concat chunks1)
     ∧ (∃ chunks2 : list Results,
          Forall2 (λ p c,
            outcome (run_plugins [p] avail (opt_source options)
                       (opt_check options)) = Ok c) plugins chunks2
          ∧ r2 = concat chunks2))
  ∧ ((∀ p e, p ∈ plugins → check p = Raises e →
             becomes_Result e = true) →
     ∃ r2 : Results,
       outcome (run_plugins plugins avail (opt_source options)
                  (opt_check options)) = Ok r2).
Proof.
  intros Ho H1. split; [|by apply run_plugins_total].
  intros r2 H2.
  pose proof (run_checks_phases _ _ _ _ _ _ Ho H1 H2) as Hc.
  assert (outcome (run_checks options plugins output)
          = Ok (Some (r1 ++ r2))) as Hc' by by rewrite Hc.
  split; [done|]. split; [|split].
  - by apply main_renders_once.
  - apply run_service_plugins_chunks in H1 as (chunks & Hall & -> & _).
    exists (fst <$> chunks). split; [|done].
    apply Forall2_fmap_r. eapply Forall2_impl; [exact Hall|].
    intros p [c a] Hp. exists (list_to_set a).
    by apply run_service_plugins_single.
  - by apply run_plugins_chunks.
Qed.

Lemma aggregated_results_order_witness :
  outcome (@run_checks elements_order Sample.no_filter
             [Sample.svc_a; Sample.dep; Sample.svc_b; Sample.silent]
             Sample.json)
  = Ok (Some [mkResult 1 SUCCESS None None;
              mkResult 2 CRITICAL None None;
              mkResult 3 ERROR (Some "B service(s) not running") None;
              mkResult 6 SUCCESS None None]).
Proof.
  destruct (@aggregated_results_order elements_order Sample.no_filter
              [Sample.svc_a; Sample.dep; Sample.svc_b; Sample.silent]
              Sample.json
              [mkResult 1 SUCCESS None None; mkResult 2 CRITICAL None None]
              {["A"]} eq_refl)
    as [Hagg _].
  - vm_compute. reflexivity.
  - destruct (Hagg [mkResult 3 ERROR (Some "B service(s) not running") None;
                    mkResult 6 SUCCESS None None]) as [Hc _].
    + vm_compute. reflexivity.
    + exact Hc.
Defined.

(** C5: the set of available services that phase 1 returns holds exactly the
    [service_name] of the service plugins of the list that match the filter
    and for which [run_plugin] returns a Result of severity SUCCESS.  Phase 2
    is run against that very set, and the run is phase 1 followed by that
    phase 2, whether phase 2 returns or not: nothing else contributes to the
    set.  Phase 2 does return when [run_plugin] makes a Result of every
    exception that a [check()] raises (an instance of [Exception] whose
    [str()] returns). *)
Theorem available_services_exact `{SetOrder} (options : Options)
    (plugins : list Plugin) (output : Renderer) (r1 : Results)
    (avail : gset string) :
  outcome (run_service_plugins plugins (opt_source options)
             (opt_check options)) = Ok (r1, avail) →
  (∀ s : string,
     s ∈ avail ↔
       ∃ p r, p ∈ plugins
         ∧ service_name p = Some s
         ∧ source_or_check_matches p (opt_source options)
             (opt_check options) = true
         ∧ outcome (run_plugin p ()) = Ok (OResult r)
         ∧ severity r = SUCCESS)
  ∧ (output_only output = false →
     run_checks options plugins output
     = (events (run_service_plugins plugins (opt_source options)
                  (opt_check options))
        ++ events (run_plugins plugins avail (opt_source options)
                     (opt_check options)),
        match outcome (run_plugins plugins avail (opt_source options)
                         (opt_check options)) with
        | Ok r2 => Ok (Some (r1 ++ r2))
        | Raised e => Raised e
        end)
     ∧ ((∀ p e, p ∈ plugins → check p = Raises e →
                becomes_Result e = true) →
        ∃ r2 : Results,
          outcome (run_plugins plugins avail (opt_source options)
                     (opt_check options)) = Ok r2)).
Proof.
  intros H1. split.
  - intros s.
    apply run_service_plugins_chunks in H1 as (chunks & Hall & _ & ->).
    rewrite elem_of_list_to_set. by apply chunks_available.
  - intros Ho. split; [by apply run_checks_after_phase1|].
    by apply run_plugins_total.
Qed.

Lemma available_services_exact_witness :
  "A" ∈ ({["A"]} : gset string) ↔
    ∃ p r, p ∈ [Sample.svc_a; Sample.dep; Sample.svc_b; Sample.silent]
      ∧ service_name p = Some "A"
      ∧ source_or_check_matches p None None = true
      ∧ outcome (run_plugin p ()) = Ok (OResult r)
      ∧ severity r = SUCCESS.
Proof.
  refine (proj1 (@available_services_exact elements_order Sample.no_filter
                   [Sample.svc_a; Sample.dep; Sample.svc_b; Sample.silent]
                   Sample.json
                   [mkResult 1 SUCCESS None None;
                    mkResult 2 CRITICAL None None]
                   {["A"]} _) "A").
  vm_compute. reflexivity.
Defined.

(** C8, at the input where it fails: when a service plugin of the list that
    matches the filter returns a Results from [check()], its turn of the loop
    of phase 1 faults right after the call, on reading [result.severity], and
    phase 1 ends with a fault instead of returning: with that fault, unless an
    exception raised by a [check()] before it left [run_plugin] (it is not
    an instance of [Exception], or its [str()] raised). *)
Theorem run_service_plugins_faults_on_Results (plugins : list Plugin)
    (source chk : option string) (vars : Results * list string)
    (plugin : Plugin) (name : string) (rs : Results) :
  plugin ∈ plugins →
  service_name plugin = Some name →
  source_or_check_matches plugin source chk = true →
  check plugin = Returns (VResults rs) →
  run_service_plugins_body source chk vars plugin
  = ([EvDebugCalling (plugin_id plugin); EvCheck (plugin_id plugin)],
     Raised AttributeError_severity)
  ∧ (∃ e, outcome (run_service_plugins plugins source chk) = Raised e)
  ∧ ((∀ p e, p ∈ plugins → check p = Raises e →
             becomes_Result e = true) →
     outcome (run_service_plugins plugins source chk)
     = Raised AttributeError_severity).
Proof.
  intros Hin Hs Hm Hc. split; [|split].
  - by apply (service_body_Results _ _ _ _ name rs).
  - by apply (run_service_plugins_no_return _ _ _ plugin name rs).
  - by apply (run_service_plugins_faults _ _ _ plugin name rs).
Qed.

Lemma run_service_plugins_faults_on_Results_witness :
  run_service_plugins_body None None ([], []) Sample.svc_multi
  = ([EvDebugCalling 4; EvCheck 4], Raised AttributeError_severity)
  ∧ outcome (run_service_plugins [Sample.svc_a; Sample.svc_multi] None None)
    = Raised AttributeError_severity.
Proof.
  destruct (run_service_plugins_faults_on_Results
              [Sample.svc_a; Sample.svc_multi] None None ([], [])
              Sample.svc_multi "C" [mkResult 4 SUCCESS None None])
    as (Hbody & _ & Hphase).
  - right. left.
  - reflexivity.
  - reflexivity.
  - reflexivity.
  - split; [exact Hbody|]. apply Hphase.
    intros p e [->|[->|[]%elem_of_nil]%elem_of_cons]%elem_of_cons Hp;
      discriminate Hp.
Defined.

(** C7, at the input where it fails: the renderer is not output-only and a
    service plugin that matches the filter returns a Results.  Phase 1 ends
    with a fault that leaves [main], and [render] is not called at all; the
    fault is the [AttributeError] of line 79, unless an exception raised by
    a [check()] left [run_plugin] before (it is not an instance of
    [Exception], or its [str()] raised). *)
Theorem main_faults_before_render `{SetOrder} (options : Options)
    (plugins : list Plugin) (output : Renderer) (plugin : Plugin)
    (name : string) (rs : Results) :
  output_only output = false →
  plugin ∈ plugins →
  service_name plugin = Some name →
  source_or_check_matches plugin (opt_source options) (opt_check options)
    = true →
  check plugin = Returns (VResults rs) →
  render_calls (events (main options plugins output)) = 0
  ∧ (∃ e, outcome (main options plugins output) = Raised e)
  ∧ ((∀ p e, p ∈ plugins → check p = Raises e →
             becomes_Result e = true) →
     outcome (main options plugins output) = Raised AttributeError_severity).
Proof.
  intros Ho Hin Hs Hm Hc.
  destruct (run_service_plugins_no_return _ _ _ plugin name rs Hin Hs Hm Hc)
    as [e H1].
  pose proof (run_checks_phase1_raised options plugins output _ Ho H1) as H2.
  assert (outcome (run_checks options plugins output) = Raised e) as H3
    by by rewrite H2.
  rewrite (main_checks_raised _ _ _ _ H3). split; [|split].
  - apply render_calls_none, run_checks_no_render.
  - by exists e.
  - intros Hexc. unfold outcome. cbn [snd]. f_equal.
    pose proof (run_service_plugins_faults _ _ _ plugin name rs Hin Hs Hm Hc
                  Hexc) as H4.
    congruence.
Qed.

Lemma main_faults_before_render_witness :
  outcome (@main elements_order Sample.no_filter
             [Sample.svc_a; Sample.svc_multi; Sample.dep] Sample.json)
  = Raised AttributeError_severity
  ∧ render_calls (events (@main elements_order Sample.no_filter
                            [Sample.svc_a; Sample.svc_multi; Sample.dep]
                            Sample.json)) = 0.
Proof.
  destruct (@main_faults_before_render elements_order Sample.no_filter
              [Sample.svc_a; Sample.svc_multi; Sample.dep] Sample.json
              Sample.svc_multi "C" [mkResult 4 SUCCESS None None])
    as (Hcalls & _ & Hfault).
  - reflexivity.
  - right. left.
  - reflexivity.
  - reflexivity.
  - reflexivity.
  - split; [|exact Hcalls]. apply Hfault.
    intros p e
      [->|[->|[->|[]%elem_of_nil]%elem_of_cons]%elem_of_cons]%elem_of_cons
      Hp; discriminate Hp.
Defined.

(** * Further properties of the engine *)

(** ** One call of [check()] per run of a plugin *)

Lemma check_ids_app (w1 w2 : list Event) :
  check_ids (w1 ++ w2) = check_ids w1 ++ check_ids w2.
Proof. unfold check_ids. apply omap_app. Qed.

Lemma run_plugin_check_ids {A} (plugin : Plugin) (available : A) :
  check_ids (events (run_plugin plugin available)) = [plugin_id plugin].
Proof.
  destruct (check plugin) as [v|e] eqn:Hc.
  - by rewrite (run_plugin_returns _ _ v Hc).
  - destruct (exc_is_Exception e) eqn:He.
    + destruct (exc_str_raises e) as [fault|] eqn:Hstr.
      * by rewrite (run_plugin_str_raises _ _ e fault Hc He Hstr).
      * by rewrite (run_plugin_raises _ _ e Hc He Hstr).
    + by rewrite (run_plugin_propagates _ _ e Hc He).
Qed.

(** X1: however [check()] ends and however [run_plugin] ends after it (it
    returns a Result or a Results, or an exception leaves it), [run_plugin]
    has invoked [check()] exactly once: a check that faults is not tried
    again. *)
Theorem run_plugin_one_call {A} (plugin : Plugin) (available : A) :
  check_ids (events (run_plugin plugin available)) = [plugin_id plugin].
Proof. apply run_plugin_check_ids. Qed.

(** ** A phase only sees the plugins it selects *)

Lemma isinstance_ServiceCheck_true (plugin : Plugin) :
  isinstance_ServiceCheck plugin = true ↔ is_Some (service_name plugin).
Proof. unfold isinstance_ServiceCheck. apply bool_decide_eq_true. Qed.

Lemma isinstance_ServiceCheck_false (plugin : Plugin) :
  isinstance_ServiceCheck plugin = false ↔ service_name plugin = None.
Proof.
  unfold isinstance_ServiceCheck. rewrite bool_decide_eq_false.
  destruct (service_name plugin) as [name|]; split; intros Hn;
    first [ done | by destruct Hn; eexists | by intros [? [=]] ].
Qed.

Lemma service_body_unselected (source chk : option string)
    (vars : Results * list string) (plugin : Plugin) :
  phase1_selects source chk plugin = false →
  run_service_plugins_body source chk vars plugin = mret vars.
Proof.
  unfold phase1_selects. intros [Hs|Hm]%andb_false_iff.
  - apply service_body_not_service. by apply isinstance_ServiceCheck_false.
  - by apply service_body_no_match.
Qed.

Lemma service_body_filter_free (source chk : option string)
    (vars : Results * list string) (plugin : Plugin) :
  phase1_selects source chk plugin = true →
  run_service_plugins_body source chk vars plugin
  = run_service_plugins_body None None vars plugin.
Proof.
  unfold phase1_selects.
  intros [[name Hs]%isinstance_ServiceCheck_true Hm]%andb_true_iff.
  destruct vars as [results available].
  rewrite (service_body_selected _ _ _ _ _ name Hs Hm).
  by rewrite (service_body_selected None None _ _ _ name Hs eq_refl).
Qed.

(** A loop skips the elements on which its body does nothing. *)
Lemma for_each_filter {A S} (body body' : S → A → Eng S) (sel : A → bool)
    (l : list A) (s : S) :
  (∀ s x, sel x = false → body s x = mret s) →
  (∀ s x, sel x = true → body s x = body' s x) →
  for_each body l s = for_each body' (filter (λ x, sel x = true) l) s.
Proof.
  intros Hskip Hrun. revert s. induction l as [|x l IH]; intros s; [done|].
  change (for_each body (x :: l) s) with (body s x ≫= for_each body l).
  destruct (sel x) eqn:Hx.
  - rewrite filter_cons_True by done.
    change (for_each body' (x :: filter (λ x, sel x = true) l) s)
      with (body' s x
            ≫= for_each body' (filter (λ x, sel x = true) l)).
    rewrite (Hrun s x Hx). by apply eng_bind_ext.
  - rewrite filter_cons_False by by rewrite Hx.
    by rewrite (Hskip s x Hx), eng_bind_ret.
Qed.

(** X2: phase 1 sees nothing but the service plugins that match the filter:
    its events and its outcome are those of a run without filter on the list
    of these plugins alone. *)
Theorem run_service_plugins_selected_only (plugins : list Plugin)
    (source chk : option string) :
  run_service_plugins plugins source chk
  = run_service_plugins
      (filter (λ p, phase1_selects source chk p = true) plugins) None None.
Proof.
  unfold run_service_plugins. f_equal.
  apply for_each_filter.
  - intros vars p. apply service_body_unselected.
  - intros vars p. apply service_body_filter_free.
Qed.

Lemma plugins_body_unselected `{SetOrder} (available : gset string)
    (source chk : option string) (results : Results) (plugin : Plugin) :
  phase2_selects source chk plugin = false →
  run_plugins_body available source chk results plugin = mret results.
Proof.
  unfold phase2_selects. intros [Hs|Hm]%andb_false_iff.
  - apply plugins_body_service. by apply negb_false_iff.
  - by apply plugins_body_no_match.
Qed.

Lemma plugins_body_filter_free `{SetOrder} (available : gset string)
    (source chk : option string) (results : Results) (plugin : Plugin) :
  phase2_selects source chk plugin = true →
  run_plugins_body available source chk results plugin
  = run_plugins_body available None None results plugin.
Proof.
  unfold phase2_selects. intros [Hs%negb_true_iff Hm]%andb_true_iff.
  unfold run_plugins_body. by rewrite Hs, Hm.
Qed.

(** X3: phase 2 sees nothing but the plugins that are not service probes and
    match the filter. *)
Theorem run_plugins_selected_only `{SetOrder} (plugins : list Plugin)
    (available : gset string) (source chk : option string) :
  run_plugins plugins available source chk
  = run_plugins
      (filter (λ p, phase2_selects source chk p = true) plugins)
      available None None.
Proof.
  unfold run_plugins. apply for_each_filter.
  - intros results p. by apply plugins_body_unselected.
  - intros results p. by apply plugins_body_filter_free.
Qed.

(** ** Which checks a run invokes, and in which order *)

Lemma for_each_check_ids {A S} (body : S → A → Eng S)
    (ids : A → list PluginId) (l : list A) (s s' : S) :
  (∀ s x, check_ids (events (body s x)) = ids x) →
  outcome (for_each body l s) = Ok s' →
  check_ids (events (for_each body l s)) = concat (ids <$> l).
Proof.
  intros Hids. revert s. induction l as [|x l IH]; intros s; [done|].
  change (for_each body (x :: l) s) with (body s x ≫= for_each body l).
  intros (s1 & H1 & Hl)%eng_bind_inv.
  rewrite (eng_bind_events _ _ s1 H1), check_ids_app, Hids, (IH s1 Hl).
  done.
Qed.

Lemma concat_optional_ids (sel : Plugin → bool) (l : list Plugin) :
  concat ((λ p, if sel p then [plugin_id p] else []) <$> l)
  = plugin_id <$> filter (λ p, sel p = true) l.
Proof.
  induction l as [|p l IH]; [done|].
  rewrite fmap_cons. cbn [concat]. rewrite IH. destruct (sel p) eqn:Hp.
  - by rewrite filter_cons_True by done.
  - by rewrite filter_cons_False by by rewrite Hp.
Qed.

Lemma service_body_check_ids (source chk : option string)
    (vars : Results * list string) (plugin : Plugin) :
  check_ids (events (run_service_plugins_body source chk vars plugin))
  = if phase1_selects source chk plugin then [plugin_id plugin] else [].
Proof.
  destruct (phase1_selects source chk plugin) eqn:Hsel.
  - pose proof Hsel as Hsel'. unfold phase1_selects in Hsel'.
    apply andb_true_iff in Hsel'
      as [[name Hs]%isinstance_ServiceCheck_true Hm].
    destruct vars as [results available].
    rewrite (service_body_selected _ _ _ _ _ name Hs Hm).
    unfold events at 1. cbn [fst].
    change (check_ids (events (run_plugin plugin ())) = [plugin_id plugin]).
    apply run_plugin_check_ids.
  - by rewrite (service_body_unselected _ _ _ _ Hsel).
Qed.

Lemma requirements_met_true (available : gset string) (plugin : Plugin) :
  requirements_met available plugin = true
  ↔ list_to_set (requires plugin) ∖ available = (∅ : gset string).
Proof.
  unfold requirements_met.
  by rewrite bool_decide_eq_true, missing_empty_iff.
Qed.

Lemma plugins_body_check_ids `{SetOrder} (available : gset string)
    (source chk : option string) (results : Results) (plugin : Plugin) :
  check_ids (events (run_plugins_body available source chk results plugin))
  = if phase2_selects source chk plugin && requirements_met available plugin
    then [plugin_id plugin] else [].
Proof.
  destruct (phase2_selects source chk plugin) eqn:Hsel.
  2: { by rewrite (plugins_body_unselected _ _ _ _ _ Hsel). }
  pose proof Hsel as Hsel'. unfold phase2_selects in Hsel'.
  apply andb_true_iff in Hsel' as [Hs%negb_true_iff Hm].
  destruct (requirements_met available plugin) eqn:Hreq; simpl.
  - apply requirements_met_true in Hreq.
    rewrite (plugins_body_run _ _ _ _ _ Hs Hm Hreq).
    pose proof (run_plugin_check_ids plugin available) as Hids.
    destruct (run_plugin plugin available) as [w [o|e]];
      unfold events in Hids; cbn [fst] in Hids; eng_simpl;
      unfold check_ids in *; simpl; rewrite ?app_nil_r; exact Hids.
  - assert (list_to_set (requires plugin) ∖ available ≠ (∅ : gset string))
      as Hmiss.
    { intros He. apply requirements_met_true in He. congruence. }
    by rewrite (plugins_body_gated _ _ _ _ _ Hs Hm Hmiss).
Qed.

Lemma run_service_plugins_check_ids (plugins : list Plugin)
    (source chk : option string) (r1 : Results) (avail : gset string) :
  outcome (run_service_plugins plugins source chk) = Ok (r1, avail) →
  check_ids (events (run_service_plugins plugins source chk))
  = plugin_id <$> filter (λ p, phase1_selects source chk p = true) plugins.
Proof.
  unfold run_service_plugins.
  intros ([results available] & Hloop & _)%eng_bind_inv.
  rewrite (eng_bind_events _ _ _ Hloop), check_ids_app.
  rewrite (for_each_check_ids _ _ _ _ _
             (service_body_check_ids source chk) Hloop).
  rewrite concat_optional_ids. simpl. by rewrite app_nil_r.
Qed.

Lemma run_plugins_check_ids `{SetOrder} (plugins : list Plugin)
    (available : gset string) (source chk : option string) (r2 : Results) :
  outcome (run_plugins plugins available source chk) = Ok r2 →
  check_ids (events (run_plugins plugins available source chk))
  = plugin_id <$>
      filter (λ p, phase2_selects source chk p
                   && requirements_met available p = true) plugins.
Proof.
  intros H2. unfold run_plugins in *.
  rewrite (for_each_check_ids _ _ _ _ _
             (plugins_body_check_ids available source chk) H2).
  apply concat_optional_ids.
Qed.

(** A [check()] that a loop invoked was invoked in one of its turns. *)
Lemma for_each_check_ids_inv {A S} (body : S → A → Eng S)
    (ids : A → list PluginId) (l : list A) (s : S) (id : PluginId) :
  (∀ s x, check_ids (events (body s x)) = ids x) →
  id ∈ check_ids (events (for_each body l s)) →
  ∃ x, x ∈ l ∧ id ∈ ids x.
Proof.
  intros Hids. revert s. induction l as [|x l IH]; intros s.
  - by intros ?%elem_of_nil.
  - change (for_each body (x :: l) s) with (body s x ≫= for_each body l).
    destruct (outcome (body s x)) as [s1|e] eqn:Hx.
    + rewrite (eng_bind_events _ _ s1 Hx), check_ids_app, elem_of_app, Hids.
      intros [Hid|(y & Hy & Hid)%IH].
      * exists x. split; [by left|done].
      * exists y. split; [by right|done].
    + rewrite (eng_bind_outcome_raised _ _ e Hx).
      unfold events at 1. cbn [fst]. rewrite Hids. intros Hid.
      exists x. split; [by left|done].
Qed.

(** Phase 2 invokes [check()] only for plugins that it selects and whose
    requirements are all available, whether it returns or not. *)
Lemma run_plugins_invoked `{SetOrder} (plugins : list Plugin)
    (available : gset string) (source chk : option string) (id : PluginId) :
  id ∈ check_ids (events (run_plugins plugins available source chk)) →
  ∃ q, q ∈ plugins
    ∧ plugin_id q = id
    ∧ phase2_selects source chk q = true
    ∧ list_to_set (requires q) ∖ available = (∅ : gset string).
Proof.
  intros (q & Hq & Hid)%(for_each_check_ids_inv _ _ _ _ _
    (plugins_body_check_ids available source chk)).
  exists q. split; [done|].
  destruct (phase2_selects source chk q) eqn:Hsel;
    [|by apply elem_of_nil in Hid].
  destruct (requirements_met available q) eqn:Hreq;
    [|by apply elem_of_nil in Hid].
  apply list_elem_of_singleton in Hid.
  split; [done|]. split; [done|]. by apply requirements_met_true.
Qed.

Lemma plugins_body_gated_A_B `{SetOrder} (source chk : option string)
    (results : Results) (plugin : Plugin) :
  isinstance_ServiceCheck plugin = false →
  source_or_check_matches plugin source chk = true →
  requires plugin = ["A"; "B"] →
  run_plugins_body {["A"]} source chk results plugin
  = ([EvDebugCalling (plugin_id plugin)],
     Ok (results ++
         [Result_new plugin ERROR (Some "B service(s) not running") None])).
Proof.
  intros Hs Hm Hreq.
  assert (list_to_set (requires plugin) ∖ {["A"]}
          = ({["B"]} : gset string)) as Hmiss.
  { rewrite Hreq. apply set_eq. intros s.
    rewrite elem_of_difference, elem_of_list_to_set, !elem_of_singleton.
    rewrite !elem_of_cons, elem_of_nil. split.
    - intros [[->|[->|[]]] Hn]; done.
    - intros ->. split; [by right; left|done]. }
  rewrite plugins_body_gated; [|done|done|].
  - rewrite Hmiss. unfold not_running_msg.
    by rewrite set_iter_singleton.
  - rewrite Hmiss. intros He.
    apply (not_elem_of_empty (C:=gset string) "B").
    rewrite <-He. by apply elem_of_singleton.
Qed.

(** Phase 2 around a turn that only logs and adds one Result. *)
Lemma run_plugins_around_gated `{SetOrder} (before after : list Plugin)
    (plugin : Plugin) (available : gset string) (source chk : option string)
    (added : Result) :
  (∀ results,
     run_plugins_body available source chk results plugin
     = ([EvDebugCalling (plugin_id plugin)], Ok (results ++ [added]))) →
  run_plugins (before ++ plugin :: after) available source chk
  = (results ← run_plugins before available source chk;
     emit (EvDebugCalling (plugin_id plugin));;
     for_each (run_plugins_body available source chk) after
       (results ++ [added])).
Proof.
  intros Hbody. rewrite run_plugins_turn. apply eng_bind_ext.
  intros results. rewrite Hbody. eng_simpl.
  by destruct (for_each (run_plugins_body available source chk) after
                (results ++ [added])).
Qed.

(** The Results of phase 2 when one turn adds a single Result: those of the
    plugins before, the Result, those of the plugins after. *)
Lemma run_plugins_results_around `{SetOrder} (before after : list Plugin)
    (plugin : Plugin) (available : gset string) (source chk : option string)
    (added : Result) (r2 : Results) :
  (∀ results,
     run_plugins_body available source chk results plugin
     = ([EvDebugCalling (plugin_id plugin)], Ok (results ++ [added]))) →
  outcome (run_plugins (before ++ plugin :: after) available source chk)
  = Ok r2
  ↔ ∃ r_before r_after,
      outcome (run_plugins before available source chk) = Ok r_before
      ∧ outcome (run_plugins after available source chk) = Ok r_after
      ∧ r2 = r_before ++ added :: r_after.
Proof.
  intros Hbody. rewrite (run_plugins_around_gated _ _ _ _ _ _ _ Hbody).
  split.
  - intros (r_before & Hb & Hrest)%eng_bind_inv.
    apply eng_bind_inv in Hrest as ([] & _ & Hafter).
    rewrite (for_each_shift app [] _ (λ s1 s2 s3, app_assoc s1 s2 s3)
               (λ s, app_nil_r s) (plugins_body_shift available source chk))
      in Hafter.
    apply eng_bind_inv in Hafter as (r_after & Ha & [= <-]).
    exists r_before, r_after. split; [done|]. split; [done|].
    by rewrite <-app_assoc.
  - intros (r_before & r_after & Hb & Ha & ->).
    rewrite (eng_bind_outcome _ _ r_before Hb).
    rewrite (eng_bind_outcome (emit (EvDebugCalling (plugin_id plugin))) _ tt
               eq_refl).
    rewrite (for_each_shift app [] _ (λ s1 s2 s3, app_assoc s1 s2 s3)
               (λ s, app_nil_r s) (plugins_body_shift available source chk)).
    unfold run_plugins, Results_new in Ha.
    rewrite (eng_bind_outcome _ _ r_after Ha).
    unfold outcome, mret, Eng_ret, eng_ret. cbn [snd].
    by rewrite <-app_assoc.
Qed.

(** C1: in phase 2, for a plugin that is not a service probe and matches the
    filter, the missing services are those it requires that are not in the
    set of available services.  When some are missing, phase 2 goes from the
    plugins before it to the plugins after it with nothing but the logger's
    event in between; phase 2 returns exactly when it does on the plugins
    before and on the plugins after, and its Results then hold, at the
    plugin's place, one ERROR Result for the plugin whose message lists each
    missing service once and no other; and the plugin's [check()] is invoked
    nowhere in phase 2 (a plugin object being known by its [plugin_id]).
    When none is missing the plugin goes through [run_plugin].  With
    requires = ["A"; "B"] and available = {"A"} the message names "B"
    alone. *)
Theorem run_plugins_requires_gate `{SetOrder} (before after : list Plugin)
    (available : gset string) (source chk : option string)
    (plugin : Plugin) :
  isinstance_ServiceCheck plugin = false →
  source_or_check_matches plugin source chk = true →
  (list_to_set (requires plugin) ∖ available ≠ (∅ : gset string) →
     ∃ names : list string,
       NoDup names
       ∧ (∀ s, s ∈ names ↔ s ∈ requires plugin ∧ s ∉ available)
       ∧ run_plugins (before ++ plugin :: after) available source chk
         = (results ← run_plugins before available source chk;
            emit (EvDebugCalling (plugin_id plugin));;
            for_each (run_plugins_body available source chk) after
              (results ++
               [Result_new plugin ERROR
                  (Some (String.concat ", " names
                         +:+ " service(s) not running"))
                  None]))
       ∧ (∀ r2,
            outcome (run_plugins (before ++ plugin :: after) available
                       source chk) = Ok r2
            ↔ ∃ r_before r_after,
                outcome (run_plugins before available source chk)
                = Ok r_before
                ∧ outcome (run_plugins after available source chk)
                  = Ok r_after
                ∧ r2 = r_before
                       ++ Result_new plugin ERROR
                            (Some (String.concat ", " names
                                   +:+ " service(s) not running"))
                            None
                       :: r_after)
       ∧ ((∀ q, q ∈ before ++ after →
                plugin_id q = plugin_id plugin → q = plugin) →
          plugin_id plugin
          ∉ check_ids (events (run_plugins (before ++ plugin :: after)
                                 available source chk))))
  ∧ (list_to_set (requires plugin) ∖ available = (∅ : gset string) →
     run_plugins (before ++ plugin :: after) available source chk
     = (results ← run_plugins before available source chk;
        emit (EvDebugCalling (plugin_id plugin));;
        result ← run_plugin plugin available;
        for_each (run_plugins_body available source chk) after
          (results ++ outcome_results result)))
  ∧ (requires plugin = ["A"; "B"] → available = {["A"]} →
     run_plugins (before ++ plugin :: after) available source chk
     = (results ← run_plugins before available source chk;
        emit (EvDebugCalling (plugin_id plugin));;
        for_each (run_plugins_body available source chk) after
          (results ++
           [Result_new plugin ERROR (Some "B service(s) not running")
              None]))).
Proof.
  intros Hs Hm. split; [|split].
  - intros Hmiss.
    exists (set_iter (list_to_set (requires plugin) ∖ available)).
    split; [apply set_iter_NoDup|]. split.
    { intros s.
      by rewrite elem_of_set_iter, elem_of_difference,
        elem_of_list_to_set. }
    split; [|split].
    + apply run_plugins_around_gated. intros results.
      by apply plugins_body_gated.
    + intros r2. apply run_plugins_results_around. intros results.
      by apply plugins_body_gated.
    + intros Hid (q & Hq & Hqid & _ & Hqmiss)%run_plugins_invoked.
      assert (q = plugin) as ->; [|done].
      apply elem_of_app in Hq as [Hq|[->|Hq]%elem_of_cons]; [|done|].
      * apply Hid; [|done]. apply elem_of_app. by left.
      * apply Hid; [|done]. apply elem_of_app. by right.
  - intros Hmiss. rewrite run_plugins_turn. apply eng_bind_ext.
    intros results. rewrite (plugins_body_run _ _ _ _ _ Hs Hm Hmiss).
    rewrite !eng_bind_assoc. apply eng_bind_ext. intros _.
    apply eng_bind_ext. intros result.
    by rewrite eng_bind_ret.
  - intros Hreq ->. apply run_plugins_around_gated. intros results.
    by apply plugins_body_gated_A_B.
Qed.

Lemma run_plugins_requires_gate_witness :
  @run_plugins elements_order
    ([Sample.silent] ++ Sample.dep :: [Sample.svc_b; Sample.faulty])
    {["A"]} None None
  = ([EvDebugCalling 6; EvCheck 6; EvDebugCalling 3;
      EvDebugCalling 5; EvCheck 5; EvDebugException (mkExc "ValueError" "boom")],
     Ok [mkResult 6 SUCCESS None None;
         mkResult 3 ERROR (Some "B service(s) not running") None;
         mkResult 5 CRITICAL None (Some "boom")]).
Proof.
  destruct (@run_plugins_requires_gate elements_order [Sample.silent]
              [Sample.svc_b; Sample.faulty] {["A"]} None None Sample.dep
              eq_refl eq_refl) as (_ & _ & Hex).
  rewrite Hex by reflexivity. vm_compute. reflexivity.
Defined.

(** Up to the point where a loop stops, the checks invoked are those of its
    turns, in order. *)
Lemma for_each_check_ids_prefix {A S} (body : S → A → Eng S)
    (ids : A → list PluginId) (l : list A) (s : S) :
  (∀ s x, check_ids (events (body s x)) = ids x) →
  check_ids (events (for_each body l s)) `prefix_of` concat (ids <$> l).
Proof.
  intros Hids. revert s. induction l as [|x l IH]; intros s.
  - by exists [].
  - change (for_each body (x :: l) s) with (body s x ≫= for_each body l).
    rewrite fmap_cons. cbn [concat].
    destruct (outcome (body s x)) as [s1|e] eqn:Hx.
    + rewrite (eng_bind_events _ _ s1 Hx), check_ids_app, Hids.
      apply prefix_app, IH.
    + rewrite (eng_bind_outcome_raised _ _ e Hx).
      unfold events at 1. cbn [fst]. rewrite Hids.
      by apply prefix_app_r.
Qed.

Lemma run_plugins_check_ids_prefix `{SetOrder} (plugins : list Plugin)
    (available : gset string) (source chk : option string) :
  check_ids (events (run_plugins plugins available source chk))
  `prefix_of`
    plugin_id <$>
      filter (λ p, phase2_selects source chk p
                   && requirements_met available p = true) plugins.
Proof.
  rewrite <-concat_optional_ids. unfold run_plugins.
  apply for_each_check_ids_prefix, plugins_body_check_ids.
Qed.

(** The renderer and the logging of its fault invoke no check. *)
Lemma main_check_ids `{SetOrder} (options : Options)
    (plugins : list Plugin) (output : Renderer) :
  check_ids (events (main options plugins output))
  = check_ids (events (run_checks options plugins output)).
Proof.
  destruct (outcome (run_checks options plugins output)) as [res|e] eqn:Hc.
  - rewrite (main_after_checks _ _ _ _ Hc). unfold events at 1. cbn [fst].
    rewrite check_ids_app.
    replace (check_ids (EvRender res :: _)) with (@nil PluginId).
    { by rewrite app_nil_r. }
    destruct (render output res) as [e|]; [|done].
    by destruct (exc_is_Exception e).
  - by rewrite (main_checks_raised _ _ _ _ Hc).
Qed.

(** X4: in a run that executes the checks and whose phase 1 returns, the
    checks invoked are, in this order: every service plugin that matches the
    filter, in list order, then every other plugin that matches the filter
    and whose requirements are all available, in list order.  Each is invoked
    once; a plugin with a missing requirement is not invoked.  The run
    invokes all of them when phase 2 returns, as it does when [run_plugin]
    makes a Result of every exception that a [check()] raises; a run that an
    exception cuts short has invoked the first ones of the list. *)
Theorem main_check_invocations `{SetOrder} (options : Options)
    (plugins : list Plugin) (output : Renderer) (r1 : Results)
    (avail : gset string) :
  output_only output = false →
  outcome (run_service_plugins plugins (opt_source options)
             (opt_check options)) = Ok (r1, avail) →
  let invoked :=
    (plugin_id <$>
       filter (λ p, phase1_selects (opt_source options) (opt_check options) p
                    = true) plugins)
    ++ (plugin_id <$>
          filter (λ p, phase2_selects (opt_source options)
                         (opt_check options) p
                       && requirements_met avail p = true) plugins) in
  (∀ r2, outcome (run_plugins plugins avail (opt_source options)
                    (opt_check options)) = Ok r2 →
         check_ids (events (main options plugins output)) = invoked)
  ∧ ((∀ p e, p ∈ plugins → check p = Raises e →
             becomes_Result e = true) →
     check_ids (events (main options plugins output)) = invoked)
  ∧ check_ids (events (main options plugins output)) `prefix_of` invoked.
Proof.
  intros Ho H1 invoked. subst invoked.
  rewrite main_check_ids, (run_checks_after_phase1 _ _ _ _ _ Ho H1).
  unfold events at 1 4 7. cbn [fst]. rewrite check_ids_app.
  rewrite (run_service_plugins_check_ids _ _ _ _ _ H1).
  assert (∀ r2, outcome (run_plugins plugins avail (opt_source options)
                           (opt_check options)) = Ok r2 →
            check_ids (events (run_plugins plugins avail
                                 (opt_source options) (opt_check options)))
            = plugin_id <$>
                filter (λ p, phase2_selects (opt_source options)
                               (opt_check options) p
                             && requirements_met avail p = true) plugins)
    as Hall.
  { intros r2 H2. by apply (run_plugins_check_ids _ _ _ _ r2). }
  split; [|split].
  - intros r2 H2. by rewrite (Hall r2 H2).
  - intros Hexc.
    destruct (run_plugins_total plugins avail (opt_source options)
                (opt_check options) Hexc) as [r2 H2].
    by rewrite (Hall r2 H2).
  - apply prefix_app, run_plugins_check_ids_prefix.
Qed.

Lemma main_check_invocations_witness :
  check_ids (events (@main elements_order Sample.no_filter
                       [Sample.dep; Sample.svc_a; Sample.silent;
                        Sample.svc_b; Sample.faulty]
                       Sample.json))
  = [1; 2; 6; 5].
Proof.
  destruct (@main_check_invocations elements_order Sample.no_filter
              [Sample.dep; Sample.svc_a; Sample.silent; Sample.svc_b;
               Sample.faulty]
              Sample.json
              [mkResult 1 SUCCESS None None; mkResult 2 CRITICAL None None]
              {["A"]} eq_refl) as (Hall & _ & _).
  - vm_compute. reflexivity.
  - rewrite (Hall [mkResult 3 ERROR (Some "B service(s) not running") None;
                   mkResult 6 SUCCESS None None;
                   mkResult 5 CRITICAL None (Some "boom")]).
    + vm_compute. reflexivity.
    + vm_compute. reflexivity.
Defined.

(** ** How a run can end *)

Lemma eng_bind_run {A B} (m : Eng A) (f : A → Eng B) (a : A) :
  outcome m = Ok a → m ≫= f = (events m ++ events (f a), outcome (f a)).
Proof.
  intros Hm.
  rewrite <-(eng_bind_events _ _ _ Hm), <-(eng_bind_outcome m f a Hm).
  by destruct (m ≫= f).
Qed.

Lemma run_service_plugins_loop_events (plugins : list Plugin)
    (source chk : option string) (vars : Results * list string) :
  outcome (for_each (run_service_plugins_body source chk) plugins
             (Results_new, [])) = Ok vars →
  events (run_service_plugins plugins source chk)
  = events (for_each (run_service_plugins_body source chk) plugins
              (Results_new, [])).
Proof.
  intros Hloop. unfold run_service_plugins.
  rewrite (eng_bind_events _ _ _ Hloop). destruct vars. simpl.
  by rewrite app_nil_r.
Qed.

(** X5: phase 1 stops at the first service plugin that matches the filter and
    returns a Results: the events are those of the plugins before it followed
    by its own call, and the plugins after it play no part. *)
Theorem run_service_plugins_stops_at_Results (before after : list Plugin)
    (source chk : option string) (plugin : Plugin) (name : string)
    (rs r : Results) (a : gset string) :
  outcome (run_service_plugins before source chk) = Ok (r, a) →
  service_name plugin = Some name →
  source_or_check_matches plugin source chk = true →
  check plugin = Returns (VResults rs) →
  run_service_plugins (before ++ plugin :: after) source chk
  = (events (run_service_plugins before source chk)
     ++ [EvDebugCalling (plugin_id plugin); EvCheck (plugin_id plugin)],
     Raised AttributeError_severity).
Proof.
  intros Hb Hs Hm Hc.
  assert (∃ vars, outcome (for_each (run_service_plugins_body source chk)
                             before (Results_new, [])) = Ok vars)
    as [vars Hloop].
  { unfold run_service_plugins in Hb.
    apply eng_bind_inv in Hb as (vars & Hv & _). by exists vars. }
  rewrite (run_service_plugins_loop_events _ _ _ _ Hloop).
  unfold run_service_plugins. rewrite for_each_app, eng_bind_assoc.
  rewrite (eng_bind_run _ _ vars Hloop).
  change (for_each (run_service_plugins_body source chk) (plugin :: after)
            vars)
    with (run_service_plugins_body source chk vars plugin
          ≫= for_each (run_service_plugins_body source chk) after).
  by rewrite (service_body_Results _ _ _ _ name rs Hs Hm Hc).
Qed.

Lemma run_service_plugins_stops_at_Results_witness :
  run_service_plugins [Sample.svc_a; Sample.svc_multi; Sample.svc_b]
    None None
  = ([EvDebugCalling 1; EvCheck 1; EvDebugCalling 4; EvCheck 4],
     Raised AttributeError_severity).
Proof.
  apply (run_service_plugins_stops_at_Results [Sample.svc_a] [Sample.svc_b]
           None None Sample.svc_multi "C" [mkResult 4 SUCCESS None None]
           [mkResult 1 SUCCESS None None] {["A"]}).
  - vm_compute. reflexivity.
  - reflexivity.
  - reflexivity.
  - reflexivity.
Defined.







Lemma plugins_body_escapes `{SetOrder} (available : gset string)
    (source chk : option string) (results : Results) (plugin : Plugin)
    (e0 e : PyExc) :
  isinstance_ServiceCheck plugin = false →
  source_or_check_matches plugin source chk = true →
  list_to_set (requires plugin) ⊆ available →
  check plugin = Raises e0 →
  escaping e0 = Some e →
  run_plugins_body available source chk results plugin
  = (EvDebugCalling (plugin_id plugin)
       :: events (run_plugin plugin available),
     Raised e).
Proof.
  intros Hs Hm Hreq Hc Hesc.
  rewrite (plugins_body_run _ _ _ _ _ Hs Hm
             (proj2 (missing_empty_iff _ _) Hreq)).
  assert (outcome (run_plugin plugin available) = Raised e) as Ho.
  { apply run_plugin_raised_iff. by exists e0. }
  rewrite (eng_bind_run (emit (EvDebugCalling (plugin_id plugin))) _ ()
             eq_refl).
  by rewrite (eng_bind_outcome_raised _ _ e Ho).
Qed.

(** X20: an exception that leaves [run_plugin] in phase 2 (a [SystemExit] or
    a [KeyboardInterrupt] that [check()] raised, or what [str()] raised at
    line 42) ends the run at that plugin: the plugins after it are not looked
    at, [render] is not called and the exception leaves [main].  So a
    [check()] that calls [sys.exit()] makes the run leave with an exit status
    after checks have been invoked. *)
Theorem check_escape_ends_run `{SetOrder} (options : Options)
    (before after : list Plugin) (plugin : Plugin) (output : Renderer)
    (r1 r_before : Results) (avail : gset string) (e0 e : PyExc) :
  output_only output = false →
  outcome (run_service_plugins (before ++ plugin :: after)
             (opt_source options) (opt_check options)) = Ok (r1, avail) →
  outcome (run_plugins before avail (opt_source options)
             (opt_check options)) = Ok r_before →
  isinstance_ServiceCheck plugin = false →
  source_or_check_matches plugin (opt_source options) (opt_check options)
  = true →
  list_to_set (requires plugin) ⊆ avail →
  check plugin = Raises e0 →
  escaping e0 = Some e →
  main options (before ++ plugin :: after) output
  = (events (run_service_plugins (before ++ plugin :: after)
               (opt_source options) (opt_check options))
     ++ events (run_plugins before avail (opt_source options)
                  (opt_check options))
     ++ EvDebugCalling (plugin_id plugin)
        :: events (run_plugin plugin avail),
     Raised e)
  ∧ render_calls (events (main options (before ++ plugin :: after) output))
    = 0.
Proof.
  intros Ho H1 Hb Hs Hm Hreq Hc Hesc.
  assert (run_plugins (before ++ plugin :: after) avail
            (opt_source options) (opt_check options)
          = (events (run_plugins before avail (opt_source options)
                       (opt_check options))
             ++ EvDebugCalling (plugin_id plugin)
                :: events (run_plugin plugin avail),
             Raised e)) as H2.
  { rewrite run_plugins_turn, (eng_bind_run _ _ r_before Hb).
    by rewrite (plugins_body_escapes _ _ _ _ _ e0 e Hs Hm Hreq Hc Hesc). }
  pose proof (run_checks_after_phase1 _ _ output _ _ Ho H1) as Hchecks.
  rewrite H2 in Hchecks. unfold events at 2, outcome in Hchecks.
  cbn [fst snd] in Hchecks.
  assert (main options (before ++ plugin :: after) output
          = (events (run_checks options (before ++ plugin :: after) output),
             Raised e)) as Hmain.
  { apply main_checks_raised. by rewrite Hchecks. }
  split.
  - by rewrite Hmain, Hchecks.
  - rewrite Hmain. apply render_calls_none, run_checks_no_render.
Qed.

Lemma check_escape_ends_run_witness :
  @main elements_order Sample.no_filter
    ([Sample.svc_a; Sample.silent] ++ Sample.quitter :: [Sample.faulty])
    Sample.json
  = ([EvDebugCalling 1; EvCheck 1;
      EvDebugCalling 6; EvCheck 6; EvDebugCalling 11; EvCheck 11],
     Raised (mkBaseExc "SystemExit" "2"))
  ∧ render_calls
      (events (@main elements_order Sample.no_filter
                 ([Sample.svc_a; Sample.silent]
                  ++ Sample.quitter :: [Sample.faulty])
                 Sample.json)) = 0.
Proof.
  destruct (@check_escape_ends_run elements_order Sample.no_filter
              [Sample.svc_a; Sample.silent] [Sample.faulty] Sample.quitter
              Sample.json [mkResult 1 SUCCESS None None]
              [mkResult 6 SUCCESS None None] {["A"]}
              (mkBaseExc "SystemExit" "2") (mkBaseExc "SystemExit" "2")
              eq_refl) as [Hrun Hcalls].
  - vm_compute. reflexivity.
  - vm_compute. reflexivity.
  - reflexivity.
  - reflexivity.
  - set_solver.
  - reflexivity.
  - reflexivity.
  - split; [|exact Hcalls]. rewrite Hrun. vm_compute. reflexivity.
Defined.

(** ** Availability of services and the gate of phase 2 *)

Lemma run_service_plugins_available (plugins : list Plugin)
    (source chk : option string) (r1 : Results) (avail : gset string)
    (s : string) :
  outcome (run_service_plugins plugins source chk) = Ok (r1, avail) →
  s ∈ avail ↔
    ∃ p r, p ∈ plugins
      ∧ service_name p = Some s
      ∧ source_or_check_matches p source chk = true
      ∧ outcome (run_plugin p ()) = Ok (OResult r)
      ∧ severity r = SUCCESS.
Proof.
  intros (chunks & Hall & _ & ->)%run_service_plugins_chunks.
  rewrite elem_of_list_to_set. by apply chunks_available.
Qed.

(** X9: a service probe whose [check()] returns no outcome (for instance
    [None]) marks its service as available: the SUCCESS that [run_plugin]
    substitutes is taken at face value by phase 1. *)
Theorem silent_probe_makes_service_available (plugins : list Plugin)
    (source chk : option string) (r1 : Results) (avail : gset string)
    (plugin : Plugin) (s : string) (v : PyValue) :
  outcome (run_service_plugins plugins source chk) = Ok (r1, avail) →
  plugin ∈ plugins →
  service_name plugin = Some s →
  source_or_check_matches plugin source chk = true →
  check plugin = Returns v →
  type_ v ≠ Result_t →
  type_ v ≠ Results_t →
  s ∈ avail.
Proof.
  intros H1 Hin Hs Hm Hc Ht1 Ht2.
  apply (run_service_plugins_available _ _ _ _ _ _ H1).
  exists plugin, (Result_new plugin SUCCESS None None).
  split; [done|]. split; [done|]. split; [done|]. split; [|done].
  rewrite (run_plugin_returns _ _ v Hc).
  destruct v; try done.
Qed.

Lemma silent_probe_makes_service_available_witness :
  "D" ∈ ({["D"]} : gset string).
Proof.
  apply (silent_probe_makes_service_available
           [mkPlugin 8 "ipahealthcheck.meta.services" "svc_d" (Some "D") []
              (Returns VNone)]
           None None [mkResult 8 SUCCESS None None] {["D"]}
           (mkPlugin 8 "ipahealthcheck.meta.services" "svc_d" (Some "D") []
              (Returns VNone))
           "D" VNone).
  - vm_compute. reflexivity.
  - left.
  - reflexivity.
  - reflexivity.
  - reflexivity.
  - discriminate.
  - discriminate.
Defined.





(** ** Filters that leave nothing to run *)







(** * The start of [main] *)

(** ** The process monad *)

Ltac proc_simpl :=
  cbv [mbind mret Proc_bind Proc_ret proc_bind proc_ret act sys_exit
       lift_res actions ending];
  cbn [fst snd app].

Lemma proc_bind_ret {A B} (a : A) (f : A → Proc B) : (mret a ≫= f) = f a.
Proof.
  unfold mbind, mret, Proc_bind, Proc_ret, proc_bind, proc_ret.
  by destruct (f a).
Qed.

Lemma proc_bind_done {A B} (m : Proc A) (f : A → Proc B) (a : A) :
  ending m = Done a →
  m ≫= f = (actions m ++ actions (f a), ending (f a)).
Proof.
  destruct m as [w r]. unfold ending, actions. simpl. intros ->.
  unfold mbind, Proc_bind, proc_bind. by destruct (f a).
Qed.

Lemma proc_bind_exit {A B} (m : Proc A) (f : A → Proc B) (status : nat) :
  ending m = Exit status → m ≫= f = (actions m, Exit status).
Proof. destruct m as [w r]. unfold ending, actions. simpl. by intros ->. Qed.

Lemma proc_bind_uncaught {A B} (m : Proc A) (f : A → Proc B) (e : PyExc) :
  ending m = Uncaught e → m ≫= f = (actions m, Uncaught e).
Proof. destruct m as [w r]. unfold ending, actions. simpl. by intros ->. Qed.

Lemma proc_bind_ext {A B} (m : Proc A) (f g : A → Proc B) :
  (∀ a, f a = g a) → m ≫= f = m ≫= g.
Proof.
  intros Hfg. destruct m as [w [a|n|e]]; [|done|done].
  unfold mbind, Proc_bind, proc_bind. by rewrite Hfg.
Qed.

Lemma proc_bind_assoc {A B C} (m : Proc A) (f : A → Proc B)
    (g : B → Proc C) :
  (m ≫= f) ≫= g = m ≫= (λ a, f a ≫= g).
Proof.
  destruct m as [w [a|n|e]]; [|done|done].
  unfold mbind, Proc_bind, proc_bind.
  destruct (f a) as [w' [b|n|e]]; [|done|done].
  destruct (g b) as [w'' r]. by rewrite app_assoc.
Qed.

Lemma proc_for_each_app {A S} (body : S → A → Proc S) (l1 l2 : list A)
    (s : S) :
  proc_for_each body (l1 ++ l2) s
  = proc_for_each body l1 s ≫= proc_for_each body l2.
Proof.
  revert s. induction l1 as [|x l1 IH]; intros s.
  - exact (eq_sym (proc_bind_ret s (proc_for_each body l2))).
  - change (body s x ≫= (λ s', proc_for_each body (l1 ++ l2) s')
            = (body s x ≫= proc_for_each body l1)
              ≫= proc_for_each body l2).
    rewrite proc_bind_assoc. by apply proc_bind_ext.
Qed.

(** ** [parse_options] *)

Lemma truthy_false (s : option string) :
  truthy s = false ↔ s = None ∨ s = Some "".
Proof.
  destruct s as [s|]; simpl.
  - rewrite negb_false_iff, bool_decide_eq_true. split.
    + intros ->. by right.
    + by intros [[=]|[= ->]].
  - split; [by left|done].
Qed.

Lemma truthy_true (s : option string) :
  truthy s = true ↔ ∃ c, s = Some c ∧ c ≠ "".
Proof.
  destruct s as [s|]; simpl.
  - rewrite negb_true_iff, bool_decide_eq_false. split.
    + intros Hs. by exists s.
    + by intros (c & [= <-] & Hc).
  - split; [done|]. by intros (c & [=] & _).
Qed.

(** X14: a check given without a source is refused: when the parsed options
    have a check that is not empty and the source is missing or is the empty
    string, [parse_options] prints the complaint and leaves with status 1,
    after whatever the parsing itself printed. *)
Theorem parse_options_requires_source (w : list Action)
    (options : Namespace) (c : string) :
  ns_check options = Some c →
  c ≠ "" →
  ns_source options = None ∨ ns_source options = Some "" →
  parse_options (w, Done options)
  = (w ++ [APrint "--source is required when --check is used"], Exit 1).
Proof.
  intros Hc Hne Hs. unfold parse_options.
  rewrite (proc_bind_done (w, Done options) _ options eq_refl).
  rewrite (proj2 (truthy_true (ns_check options))) by by exists c.
  rewrite (proj2 (truthy_false (ns_source options))) by done.
  reflexivity.
Qed.

Lemma parse_options_requires_source_witness :
  parse_options ([], Done (mkNamespace false (Some "") (Some "BazCheck")
                             "json" false))
  = ([APrint "--source is required when --check is used"], Exit 1).
Proof.
  apply (parse_options_requires_source []
           (mkNamespace false (Some "") (Some "BazCheck") "json" false)
           "BazCheck").
  - reflexivity.
  - discriminate.
  - by right.
Defined.

(** X15: options that [parse_options] lets through are the parsed ones, and
    with them a check that is not empty always comes with a source that is
    not empty; the filter then selects exactly the plugins of that module
    and that class. *)
Theorem parse_options_validated (parse_args : Proc Namespace)
    (options : Namespace) :
  ending (parse_options parse_args) = Done options →
  parse_options parse_args = parse_args
  ∧ (∀ c, ns_check options = Some c → c ≠ "" →
       ∃ s, ns_source options = Some s ∧ s ≠ ""
         ∧ ∀ p, source_or_check_matches p (ns_source options)
                  (ns_check options) = true
                ↔ module_name p = s ∧ class_name p = c).
Proof.
  unfold parse_options. destruct parse_args as [w [ns|n|e]]; [|done|done].
  rewrite (proc_bind_done (w, Done ns) _ ns eq_refl).
  destruct (truthy (ns_check ns) && negb (truthy (ns_source ns))) eqn:Hv;
    [done|].
  unfold ending, actions. cbn [fst snd]. intros [= ->].
  rewrite app_nil_r. split; [done|].
  intros c Hc Hne.
  apply andb_false_iff in Hv as [Hv|Hv].
  { apply truthy_false in Hv as [Hv|Hv]; congruence. }
  apply negb_false_iff, truthy_true in Hv as (s & Hs & Hsne).
  exists s. split; [done|]. split; [done|]. intros p.
  rewrite source_or_check_matches_iff, Hs, Hc. split.
  - intros [H1 H2]. split; [by apply H1|by apply H2].
  - intros [<- <-]. split; by intros ? [= <-].
Qed.

Lemma parse_options_validated_witness :
  parse_options ([], Done (mkNamespace false (Some "ipahealthcheck.foo.bar")
                             (Some "BazCheck") "json" false))
  = ([], Done (mkNamespace false (Some "ipahealthcheck.foo.bar")
                 (Some "BazCheck") "json" false)).
Proof.
  apply (parse_options_validated
           ([], Done (mkNamespace false (Some "ipahealthcheck.foo.bar")
                        (Some "BazCheck") "json" false))
           (mkNamespace false (Some "ipahealthcheck.foo.bar")
              (Some "BazCheck") "json" false)).
  reflexivity.
Defined.

(** ** [find_registries] *)

Lemma dict_set_fresh {V} (d : list (string * V)) (k : string) (v : V) :
  k ∉ d.*1 → dict_set d k v = d ++ [(k, v)].
Proof.
  induction d as [|[k' v'] d IH]; [done|]. simpl.
  intros [Hne Hk]%not_elem_of_cons.
  rewrite bool_decide_eq_false_2 by done. by rewrite IH.
Qed.

Lemma dict_set_keys_in {V} (d : list (string * V)) (k : string) (v : V) :
  k ∈ d.*1 → (dict_set d k v).*1 = d.*1.
Proof.
  induction d as [|[k' v'] d IH]; [by intros ?%elem_of_nil|]. simpl.
  intros Hk. case_bool_decide as Hkk; simpl; [by subst|].
  f_equal. apply IH. by apply elem_of_cons in Hk as [->|Hk].
Qed.

Lemma dict_set_NoDup {V} (d : list (string * V)) (k : string) (v : V) :
  NoDup d.*1 → NoDup (dict_set d k v).*1.
Proof.
  intros Hd. destruct (decide (k ∈ d.*1)) as [Hk|Hk].
  - by rewrite dict_set_keys_in.
  - rewrite dict_set_fresh, fmap_app by done. simpl.
    apply NoDup_app. split; [done|]. split; [|apply NoDup_singleton].
    intros x Hx ->%list_elem_of_singleton. done.
Qed.

Lemma elem_of_dict_set {V} (d : list (string * V)) (k k' : string)
    (v v' : V) :
  NoDup d.*1 →
  (k', v') ∈ dict_set d k v
  ↔ (k' = k ∧ v' = v) ∨ (k' ≠ k ∧ (k', v') ∈ d).
Proof.
  induction d as [|[k0 v0] d IH]; simpl.
  - intros _. rewrite list_elem_of_singleton, elem_of_nil. split.
    + intros [= -> ->]. by left.
    + intros [[-> ->]|[_ []]]. done.
  - intros [Hk0 Hd]%NoDup_cons. case_bool_decide as Hkk.
    + subst k0. rewrite !elem_of_cons. split.
      * intros [[= -> ->]|Hin]; [by left|]. right. split; [|by right].
        intros ->. apply Hk0. apply list_elem_of_fmap. by exists (k, v').
      * intros [[-> ->]|[Hne [[= -> ->]|Hin]]]; [by left|done|by right].
    + rewrite !elem_of_cons, (IH Hd). split.
      * intros [[= -> ->]|[[-> ->]|[Hne Hin]]].
        -- right. split; [done|by left].
        -- by left.
        -- right. split; [done|by right].
      * intros [[-> ->]|[Hne [[= -> ->]|Hin]]].
        -- right. by left.
        -- by left.
        -- right. right. done.
Qed.

Lemma find_registries_from_spec (eps : list (string * Res Registry))
    (d0 d : list (string * Registry)) :
  find_registries_from eps d0 = Ok d →
  NoDup d0.*1 →
  NoDup d.*1
  ∧ ∀ name registry,
      (name, registry) ∈ d
      ↔ (∃ before after,
           eps = before ++ (name, Ok registry) :: after
           ∧ name ∉ after.*1)
        ∨ ((name, registry) ∈ d0 ∧ name ∉ eps.*1).
Proof.
  revert d0. induction eps as [|[n [r|e]] eps IH]; intros d0; simpl.
  - intros [= <-] Hd0. split; [done|]. intros name registry. split.
    + intros Hin. right. split; [done|]. apply not_elem_of_nil.
    + intros [(before & after & Heq & _)|[Hin _]]; [|done].
      by destruct before.
  - intros Hrest Hd0.
    destruct (IH _ Hrest (dict_set_NoDup _ n r Hd0)) as [Hnd Hiff].
    split; [done|]. intros name registry.
    rewrite Hiff, (elem_of_dict_set _ _ _ _ _ Hd0). clear Hiff. split.
    + intros [(before & after & -> & Hn)
             |[[[-> ->]|[Hne Hin]] Hn]].
      * left. by exists ((n, Ok r) :: before), after.
      * left. by exists [], eps.
      * right. split; [done|]. by apply not_elem_of_cons.
    + intros [(before & after & Heq & Hn)|[Hin [Hne Hn]%not_elem_of_cons]].
      * destruct before as [|x before]; simpl in Heq.
        -- injection Heq as -> -> ->. right. split; [by left|done].
        -- injection Heq as <- ->. left. by exists before, after.
      * right. split; [|done]. right. done.
  - done.
Qed.

(** X16: [find_registries] keeps one registry per name: the names of the
    dictionary are distinct, and the registry found under a name is the one
    of the last entry point of that name that resolves; earlier ones of the
    same name are dropped and will not be initialized. *)
Theorem find_registries_last_wins (env : Environment)
    (d : list (string * Registry)) :
  find_registries env = Ok d →
  NoDup d.*1
  ∧ ∀ name registry,
      (name, registry) ∈ d
      ↔ ∃ before after,
          registry_entry_points env = before ++ (name, Ok registry) :: after
          ∧ name ∉ after.*1.
Proof.
  intros Hd. unfold find_registries in Hd.
  apply find_registries_from_spec in Hd as [Hnd Hiff]; [|constructor].
  split; [done|]. intros name registry. rewrite Hiff. split.
  - by intros [?|[?%elem_of_nil _]].
  - by left.
Qed.

Lemma find_registries_last_wins_witness :
  NoDup ["ipa"; "meta"]
  ∧ ∃ before after,
      [("ipa", Ok (mkRegistry None (Ok [Sample.dep])));
       ("meta", Ok (mkRegistry None (Ok [Sample.svc_a])));
       ("ipa", Ok (mkRegistry None (Ok [Sample.silent])))]
      = before ++ ("ipa", Ok (mkRegistry None (Ok [Sample.silent]))) :: after
      ∧ "ipa" ∉ after.*1.
Proof.
  destruct (find_registries_last_wins
              (mkEnvironment
                 [("ipa", Ok (mkRegistry None (Ok [Sample.dep])));
                  ("meta", Ok (mkRegistry None (Ok [Sample.svc_a])));
                  ("ipa", Ok (mkRegistry None (Ok [Sample.silent])))]
                 (λ _, []))
              [("ipa", mkRegistry None (Ok [Sample.silent]));
               ("meta", mkRegistry None (Ok [Sample.svc_a]))])
    as [Hnd Hiff]; [reflexivity|].
  split; [exact Hnd|]. apply Hiff. by left.
Defined.

Lemma find_registries_from_fresh (d d0 : list (string * Registry)) :
  NoDup (d0.*1 ++ d.*1) →
  find_registries_from (prod_map id Ok <$> d) d0 = Ok (d0 ++ d).
Proof.
  revert d0. induction d as [|[name registry] d IH]; intros d0; simpl.
  - intros _. by rewrite app_nil_r.
  - intros Hnd. rewrite dict_set_fresh.
    + rewrite IH; [by rewrite <-app_assoc|].
      by rewrite fmap_app, <-app_assoc.
    + apply NoDup_app in Hnd as (_ & Hdis & _). intros Hin.
      apply (Hdis name Hin). by left.
Qed.

(** X17: when the entry points of the registries have distinct names and all
    resolve, [find_registries] lists the registries in the order of the entry
    points. *)
Theorem find_registries_keeps_order (env : Environment)
    (d : list (string * Registry)) :
  registry_entry_points env = prod_map id Ok <$> d →
  NoDup d.*1 →
  find_registries env = Ok d.
Proof.
  intros Heps Hnd. unfold find_registries. rewrite Heps.
  by rewrite find_registries_from_fresh.
Qed.

Lemma find_registries_keeps_order_witness :
  find_registries
    (mkEnvironment
       [("meta", Ok (mkRegistry None (Ok [Sample.svc_a])));
        ("ipa", Ok (mkRegistry None (Ok [Sample.dep])))]
       (λ _, []))
  = Ok [("meta", mkRegistry None (Ok [Sample.svc_a]));
        ("ipa", mkRegistry None (Ok [Sample.dep]))].
Proof.
  apply (find_registries_keeps_order
           (mkEnvironment
              [("meta", Ok (mkRegistry None (Ok [Sample.svc_a])));
               ("ipa", Ok (mkRegistry None (Ok [Sample.dep])))]
              (λ _, []))
           [("meta", mkRegistry None (Ok [Sample.svc_a]));
            ("ipa", mkRegistry None (Ok [Sample.dep]))]).
  - reflexivity.
  - apply NoDup_cons. split; [|apply NoDup_singleton].
    intros Hin%list_elem_of_singleton. discriminate Hin.
Defined.

Lemma find_registries_from_fault (good : list (string * Registry))
    (name : string) (e : PyExc) (after : list (string * Res Registry))
    (d0 : list (string * Registry)) :
  find_registries_from
    ((prod_map id Ok <$> good) ++ (name, Raised e) :: after) d0
  = Raised e.
Proof.
  revert d0. induction good as [|[n r] good IH]; intros d0; [done|].
  simpl. apply IH.
Qed.

(** ** The loop over the registries *)

Lemma proc_bind_actions_Forall {A B} (P : Action → Prop) (m : Proc A)
    (f : A → Proc B) :
  Forall P (actions m) →
  (∀ a, Forall P (actions (f a))) →
  Forall P (actions (m ≫= f)).
Proof.
  intros Hm Hf. destruct m as [w [a|n|e]]; [|done|done].
  rewrite (proc_bind_done (w, Done a) _ a eq_refl).
  apply Forall_app. by split.
Qed.

Lemma proc_for_each_actions_Forall {A S} (P : Action → Prop)
    (body : S → A → Proc S) (l : list A) (s : S) :
  (∀ s x, Forall P (actions (body s x))) →
  Forall P (actions (proc_for_each body l s)).
Proof.
  intros Hbody. revert s. induction l as [|x l IH]; intros s.
  - constructor.
  - change (proc_for_each body (x :: l) s)
      with (body s x ≫= proc_for_each body l).
    apply proc_bind_actions_Forall; [apply Hbody|apply IH].
Qed.

Lemma lift_res_no_action {A} (P : Action → Prop) (r : Res A) :
  Forall P (actions (lift_res r)).
Proof. destruct r; constructor. Qed.

Lemma find_plugins_no_engine (env : Environment) (name : string)
    (registry : Registry) :
  Forall (λ a, is_engine a = false)
    (actions (find_plugins env name registry)).
Proof.
  unfold find_plugins. apply proc_bind_actions_Forall.
  - apply proc_for_each_actions_Forall. intros [] loaded.
    apply proc_bind_actions_Forall; [by repeat constructor|].
    intros _. destruct loaded; constructor.
  - intros _. apply lift_res_no_action.
Qed.

Lemma collect_body_no_engine (env : Environment) (plugins : list Plugin)
    (item : string * Registry) :
  Forall (λ a, is_engine a = false)
    (actions (collect_plugins_body env plugins item)).
Proof.
  destruct item as [name registry]. unfold collect_plugins_body.
  apply proc_bind_actions_Forall; [by repeat constructor|]. intros _.
  apply proc_bind_actions_Forall.
  - destruct (initialize registry) as [e|]; [|constructor].
    destruct (exc_is_Exception e); [|constructor].
    destruct (exc_str_raises e) as [fault|]; [constructor|].
    apply proc_bind_actions_Forall; [by repeat constructor|].
    intros _. constructor.
  - intros _. apply proc_bind_actions_Forall.
    + apply find_plugins_no_engine.
    + intros found. constructor.
Qed.

Lemma collect_body_init_fails (env : Environment) (plugins : list Plugin)
    (name : string) (registry : Registry) (e : PyExc) :
  initialize registry = Some e →
  exc_is_Exception e = true →
  exc_str_raises e = None →
  collect_plugins_body env plugins (name, registry)
  = ([AInitialize name;
      APrint ("Unable to initialize " +:+ name +:+ ": " +:+ exc_str e)],
     Exit 1).
Proof.
  intros Hi He Hstr. unfold collect_plugins_body. by rewrite Hi, He, Hstr.
Qed.

(** What [str(e)] raises at line 172 leaves the handler. *)
Lemma collect_body_init_str_raises (env : Environment)
    (plugins : list Plugin) (name : string) (registry : Registry)
    (e fault : PyExc) :
  initialize registry = Some e →
  exc_is_Exception e = true →
  exc_str_raises e = Some fault →
  collect_plugins_body env plugins (name, registry)
  = ([AInitialize name], Uncaught fault).
Proof.
  intros Hi He Hstr. unfold collect_plugins_body. by rewrite Hi, He, Hstr.
Qed.

Lemma collect_body_init_leaves (env : Environment) (plugins : list Plugin)
    (name : string) (registry : Registry) (e : PyExc) :
  initialize registry = Some e →
  exc_is_Exception e = false →
  collect_plugins_body env plugins (name, registry)
  = ([AInitialize name], Uncaught e).
Proof. intros Hi He. unfold collect_plugins_body. by rewrite Hi, He. Qed.

Lemma loads_loop_ok (name : string) (loads : list (option PyExc)) :
  Forall (λ loaded, loaded = None) loads →
  proc_for_each
    (λ (_ : ()) (loaded : option PyExc),
       act (ALoad name);;
       match loaded with
       | None => mret tt
       | Some e => lift_res (Raised e)
       end) loads ()
  = (replicate (length loads) (ALoad name), Done ()).
Proof.
  induction 1 as [|loaded loads -> _ IH]; [done|].
  cbn [proc_for_each].
  rewrite (proc_bind_done ([ALoad name], Done ()) _ () eq_refl).
  by rewrite IH.
Qed.

Lemma find_plugins_loaded (env : Environment) (name : string)
    (registry : Registry) :
  Forall (λ loaded, loaded = None) (entry_point_loads env name) →
  find_plugins env name registry
  = (replicate (length (entry_point_loads env name)) (ALoad name),
     match get_plugins registry with
     | Ok ps => Done ps
     | Raised e => Uncaught e
     end).
Proof.
  intros Hloads. unfold find_plugins. rewrite (loads_loop_ok _ _ Hloads).
  rewrite (proc_bind_done (_, Done ()) _ () eq_refl).
  unfold actions, ending. cbn [fst snd].
  destruct (get_plugins registry); simpl; by rewrite app_nil_r.
Qed.

Lemma collect_body_ok (env : Environment) (plugins ps : list Plugin)
    (name : string) (registry : Registry) :
  initialize registry = None →
  Forall (λ loaded, loaded = None) (entry_point_loads env name) →
  get_plugins registry = Ok ps →
  collect_plugins_body env plugins (name, registry)
  = (AInitialize name
       :: replicate (length (entry_point_loads env name)) (ALoad name),
     Done (plugins ++ ps)).
Proof.
  intros Hi Hl Hg. unfold collect_plugins_body.
  rewrite Hi, (find_plugins_loaded _ _ _ Hl), Hg.
  proc_simpl. by rewrite app_nil_r.
Qed.

(** The plugins of all registries, in the order of the registries. *)
Lemma collect_plugins_all_ok (env : Environment)
    (registries : list (string * Registry)) (pss : list (list Plugin))
    (plugins : list Plugin) :
  Forall2 (λ item ps,
    initialize item.2 = None
    ∧ Forall (λ loaded, loaded = None) (entry_point_loads env item.1)
    ∧ get_plugins item.2 = Ok ps) registries pss →
  ending (proc_for_each (collect_plugins_body env) registries plugins)
  = Done (plugins ++ concat pss).
Proof.
  intros Hall. revert plugins.
  induction Hall as [|[name registry] ps registries pss (Hi & Hl & Hg) _ IH];
    intros plugins.
  - simpl. by rewrite app_nil_r.
  - cbn [proc_for_each].
    rewrite (proc_bind_done _ _ (plugins ++ ps))
      by by rewrite (collect_body_ok _ _ ps _ _ Hi Hl Hg).
    unfold ending at 1. cbn [snd]. fold (ending (proc_for_each
      (collect_plugins_body env) registries (plugins ++ ps))).
    rewrite IH. simpl. by rewrite app_assoc.
Qed.

Lemma select_body_no_engine (options : Namespace) (output : OutputObject)
    (out : OutputClass) :
  Forall (λ a, is_engine a = false)
    (actions (select_output_body options output out)).
Proof.
  unfold select_output_body. case_bool_decide; [|constructor].
  apply proc_bind_actions_Forall; [by repeat constructor|]. intros _.
  apply proc_bind_actions_Forall; [apply lift_res_no_action|].
  intros r. constructor.
Qed.

(** ** [main] from its first line *)

Lemma main_program_after_options `{SetOrder} (env : Environment)
    (default_output : OutputObject) (output_plugins : list OutputClass)
    (parse_args : Proc Namespace) (options : Namespace) :
  ending (parse_options parse_args) = Done options →
  main_program env default_output output_plugins parse_args
  = (ASetLevel false
       :: actions (parse_options parse_args)
       ++ (if ns_debug options then [ASetLevel true] else [])
       ++ actions (main_from_options env default_output output_plugins
                     options),
     ending (main_from_options env default_output output_plugins options)).
Proof.
  intros Hp. unfold main_program.
  rewrite (proc_bind_done (act _) _ () eq_refl).
  rewrite (proc_bind_done _ _ options Hp).
  destruct (ns_debug options).
  - rewrite (proc_bind_done (act _) _ () eq_refl). done.
  - rewrite proc_bind_ret. done.
Qed.

(** X18: a registry entry point that does not resolve ends the run before
    any registry is initialized: after the options are parsed nothing more
    happens, and the fault of [ep.resolve()] leaves [main] uncaught. *)
Theorem resolve_fault_leaves_main `{SetOrder} (env : Environment)
    (default_output : OutputObject) (output_plugins : list OutputClass)
    (parse_args : Proc Namespace) (options : Namespace)
    (good : list (string * Registry)) (name : string) (e : PyExc)
    (after : list (string * Res Registry)) :
  ending (parse_options parse_args) = Done options →
  registry_entry_points env
  = (prod_map id Ok <$> good) ++ (name, Raised e) :: after →
  main_program env default_output output_plugins parse_args
  = (ASetLevel false
       :: actions (parse_options parse_args)
       ++ (if ns_debug options then [ASetLevel true] else []),
     Uncaught e).
Proof.
  intros Hp Heps.
  rewrite (main_program_after_options _ _ _ _ _ Hp).
  unfold main_from_options, find_registries.
  rewrite Heps, find_registries_from_fault.
  unfold actions at 2, ending. cbn [fst snd]. by rewrite app_nil_r.
Qed.

Lemma resolve_fault_leaves_main_witness :
  @main_program elements_order
    (mkEnvironment
       [("meta", Ok (mkRegistry None (Ok [Sample.svc_a])));
        ("ipa", Raised (mkExc "ImportError" "No module named ipalib"))]
       (λ _, []))
    (IsRenderer Sample.json) []
    ([], Done (mkNamespace true None None "json" false))
  = ([ASetLevel false; ASetLevel true],
     Uncaught (mkExc "ImportError" "No module named ipalib")).
Proof.
  apply (@resolve_fault_leaves_main elements_order
           (mkEnvironment
              [("meta", Ok (mkRegistry None (Ok [Sample.svc_a])));
               ("ipa", Raised (mkExc "ImportError" "No module named ipalib"))]
              (λ _, []))
           (IsRenderer Sample.json) []
           ([], Done (mkNamespace true None None "json" false))
           (mkNamespace true None None "json" false)
           [("meta", mkRegistry None (Ok [Sample.svc_a]))] "ipa"
           (mkExc "ImportError" "No module named ipalib") []).
  - reflexivity.
  - reflexivity.
Defined.

(** X19: a registry whose [initialize] raises ends the run there: the
    registries before it have been initialized and their plugins collected,
    and nothing follows: the registries after it are not initialized, no
    output is instantiated, no check is invoked and [render] is not called.
    When what is raised is an [Exception] whose [str()] returns, it is
    printed with the registry's name and the status is 1; anything else
    leaves [main] as it is, with nothing printed, and so does what [str()]
    raises when it does not return. *)
Theorem initialize_fault_exits `{SetOrder} (env : Environment)
    (default_output : OutputObject) (output_plugins : list OutputClass)
    (options : Namespace) (good rest : list (string * Registry))
    (name : string) (registry : Registry) (e : PyExc)
    (plugins : list Plugin) :
  find_registries env = Ok (good ++ (name, registry) :: rest) →
  ending (proc_for_each (collect_plugins_body env) good []) = Done plugins →
  initialize registry = Some e →
  (exc_is_Exception e = true → exc_str_raises e = None →
   main_from_options env default_output output_plugins options
   = (actions (proc_for_each (collect_plugins_body env) good [])
      ++ [AInitialize name;
          APrint ("Unable to initialize " +:+ name +:+ ": " +:+ exc_str e)],
      Exit 1))
  ∧ (exc_is_Exception e = false →
     main_from_options env default_output output_plugins options
     = (actions (proc_for_each (collect_plugins_body env) good [])
        ++ [AInitialize name],
        Uncaught e))
  ∧ (∀ fault, exc_is_Exception e = true → exc_str_raises e = Some fault →
     main_from_options env default_output output_plugins options
     = (actions (proc_for_each (collect_plugins_body env) good [])
        ++ [AInitialize name],
        Uncaught fault)).
Proof.
  intros Hd Hgood Hi.
  split; [|split]; intros; unfold main_from_options; rewrite Hd;
    rewrite (proc_bind_done (lift_res (Ok _)) _ _ eq_refl);
    rewrite proc_for_each_app, proc_bind_assoc;
    rewrite (proc_bind_done _ _ plugins Hgood);
    cbn [proc_for_each].
  - by rewrite (collect_body_init_fails _ _ _ _ e Hi).
  - by rewrite (collect_body_init_leaves _ _ _ _ e Hi).
  - by rewrite (collect_body_init_str_raises _ _ _ _ e fault Hi).
Qed.

Lemma initialize_fault_exits_witness :
  @main_from_options elements_order
    (mkEnvironment
       [("meta", Ok (mkRegistry None (Ok [Sample.svc_a])));
        ("ipa", Ok (mkRegistry (Some (mkExc "RuntimeError" "not installed"))
                      (Ok [Sample.dep])));
        ("ds", Ok (mkRegistry None (Ok [Sample.silent])))]
       (λ _, [None]))
    (IsRenderer Sample.json) []
    (mkNamespace false None None "json" false)
  = ([AInitialize "meta"; ALoad "meta"; AInitialize "ipa";
      APrint "Unable to initialize ipa: not installed"],
     Exit 1).
Proof.
  apply (@initialize_fault_exits elements_order
           (mkEnvironment
              [("meta", Ok (mkRegistry None (Ok [Sample.svc_a])));
               ("ipa", Ok (mkRegistry
                             (Some (mkExc "RuntimeError" "not installed"))
                             (Ok [Sample.dep])));
               ("ds", Ok (mkRegistry None (Ok [Sample.silent])))]
              (λ _, [None]))
           (IsRenderer Sample.json) []
           (mkNamespace false None None "json" false)
           [("meta", mkRegistry None (Ok [Sample.svc_a]))]
           [("ds", mkRegistry None (Ok [Sample.silent]))]
           "ipa"
           (mkRegistry (Some (mkExc "RuntimeError" "not installed"))
              (Ok [Sample.dep]))
           (mkExc "RuntimeError" "not installed")
           [Sample.svc_a]).
  - reflexivity.
  - reflexivity.
  - reflexivity.
  - reflexivity.
  - reflexivity.
Defined.

(** X21: when every registry initializes, every module of plugins loads and
    every registry yields its plugins, the engine runs on the plugins of all
    registries, concatenated in the order of the registries, with the chosen
    renderer; what happens before is no action of the engine, and [main] ends
    as the engine does. *)
Theorem main_runs_engine_on_collected_plugins `{SetOrder}
    (env : Environment) (default_output : OutputObject)
    (output_plugins : list OutputClass) (options : Namespace)
    (registries : list (string * Registry)) (pss : list (list Plugin))
    (r : Renderer) :
  find_registries env = Ok registries →
  Forall2 (λ item ps,
    initialize item.2 = None
    ∧ Forall (λ loaded, loaded = None) (entry_point_loads env item.1)
    ∧ get_plugins item.2 = Ok ps) registries pss →
  ending (proc_for_each (select_output_body options) output_plugins
            default_output) = Done (IsRenderer r) →
  ∃ before : list Action,
    Forall (λ a, is_engine a = false) before
    ∧ main_from_options env default_output output_plugins options
      = (before
         ++ (AEngine <$> events (main (engine_options options)
                                   (concat pss) r)),
         match outcome (main (engine_options options) (concat pss) r) with
         | Ok _ => Done ()
         | Raised e => Uncaught e
         end).
Proof.
  intros Hd Hall Hsel.
  exists (actions (proc_for_each (collect_plugins_body env) registries [])
          ++ actions (proc_for_each (select_output_body options)
                        output_plugins default_output)).
  split.
  - apply Forall_app. split.
    + apply proc_for_each_actions_Forall. intros.
      apply collect_body_no_engine.
    + apply proc_for_each_actions_Forall. intros.
      apply select_body_no_engine.
  - unfold main_from_options. rewrite Hd.
    rewrite (proc_bind_done (lift_res (Ok _)) _ _ eq_refl).
    rewrite (proc_bind_done _ _ _ (collect_plugins_all_ok _ _ _ [] Hall)).
    rewrite (proc_bind_done _ _ _ Hsel).
    unfold lift_eng, actions at 1 3 6, ending. cbn [fst snd app].
    rewrite <-app_assoc.
    by destruct (outcome (main (engine_options options) (concat pss) r))
      as [[]|e].
Qed.

Lemma main_runs_engine_on_collected_plugins_witness :
  ∃ before : list Action,
    Forall (λ a, is_engine a = false) before
    ∧ @main_from_options elements_order
        (mkEnvironment
           [("meta", Ok (mkRegistry None (Ok [Sample.svc_a; Sample.svc_b])));
            ("ipa", Ok (mkRegistry None (Ok [Sample.dep])))]
           (λ _, [None]))
        (NoOutputOnly (mkExc "AttributeError" "output_only"))
        [mkOutputClass "json" (λ _, Ok Sample.json)]
        (mkNamespace false None None "json" false)
      = (before
         ++ (AEngine <$>
               events (@main elements_order
                         (engine_options
                            (mkNamespace false None None "json" false))
                         (concat [[Sample.svc_a; Sample.svc_b];
                                  [Sample.dep]])
                         Sample.json)),
         match outcome (@main elements_order
                          (engine_options
                             (mkNamespace false None None "json" false))
                          (concat [[Sample.svc_a; Sample.svc_b];
                                   [Sample.dep]])
                          Sample.json) with
         | Ok _ => Done ()
         | Raised e => Uncaught e
         end).
Proof.
  apply (@main_runs_engine_on_collected_plugins elements_order
           (mkEnvironment
              [("meta", Ok (mkRegistry None
                              (Ok [Sample.svc_a; Sample.svc_b])));
               ("ipa", Ok (mkRegistry None (Ok [Sample.dep])))]
              (λ _, [None]))
           (NoOutputOnly (mkExc "AttributeError" "output_only"))
           [mkOutputClass "json" (λ _, Ok Sample.json)]
           (mkNamespace false None None "json" false)
           [("meta", mkRegistry None (Ok [Sample.svc_a; Sample.svc_b]));
            ("ipa", mkRegistry None (Ok [Sample.dep]))]
           [[Sample.svc_a; Sample.svc_b]; [Sample.dep]]
           Sample.json).
  - reflexivity.
  - repeat constructor.
  - reflexivity.
Defined.

(** ** The choice of the renderer *)

Lemma select_body_match (options : Namespace) (output : OutputObject)
    (out : OutputClass) (r : Renderer) :
  out_name_lower out = ns_output options →
  out_new out options = Ok r →
  select_output_body options output out
  = ([ANewOutput (out_name_lower out)], Done (IsRenderer r)).
Proof.
  intros Hn Hr. unfold select_output_body.
  rewrite bool_decide_eq_true_2 by done. by rewrite Hr.
Qed.

Lemma select_body_no_match (options : Namespace) (output : OutputObject)
    (out : OutputClass) :
  out_name_lower out ≠ ns_output options →
  select_output_body options output out = mret output.
Proof.
  intros Hne. unfold select_output_body.
  by rewrite bool_decide_eq_false_2 by done.
Qed.

Lemma select_loop_no_match (options : Namespace) (output : OutputObject)
    (outs : list OutputClass) :
  Forall (λ out, out_name_lower out ≠ ns_output options) outs →
  proc_for_each (select_output_body options) outs output = ([], Done output).
Proof.
  induction 1 as [|out outs Hne _ IH]; [done|].
  cbn [proc_for_each].
  by rewrite (select_body_no_match _ _ _ Hne), proc_bind_ret.
Qed.

(** X22: the renderer is an instance of the last output class whose name in
    lower case is the requested output; classes of other names are not
    instantiated, and when no class has that name the default object stays
    and nothing is instantiated. *)
Theorem select_output_last_match (options : Namespace)
    (default_output : OutputObject) (before after : list OutputClass)
    (out : OutputClass) (r : Renderer) (previous : OutputObject) :
  ending (proc_for_each (select_output_body options) before default_output)
  = Done previous →
  out_name_lower out = ns_output options →
  out_new out options = Ok r →
  Forall (λ o, out_name_lower o ≠ ns_output options) after →
  proc_for_each (select_output_body options) (before ++ out :: after)
    default_output
  = (actions (proc_for_each (select_output_body options) before
                default_output)
     ++ [ANewOutput (out_name_lower out)],
     Done (IsRenderer r))
  ∧ proc_for_each (select_output_body options) after default_output
    = ([], Done default_output).
Proof.
  intros Hb Hn Hr Hafter. split; [|by apply select_loop_no_match].
  rewrite proc_for_each_app, (proc_bind_done _ _ _ Hb).
  cbn [proc_for_each].
  rewrite (select_body_match _ _ _ r Hn Hr).
  rewrite (proc_bind_done ([_], Done _) _ _ eq_refl).
  by rewrite (select_loop_no_match _ _ _ Hafter).
Qed.

Lemma select_output_last_match_witness :
  proc_for_each
    (select_output_body (mkNamespace false None None "json" false))
    ([mkOutputClass "json" (λ _, Ok Sample.broken_renderer)]
     ++ mkOutputClass "json" (λ _, Ok Sample.json)
     :: [mkOutputClass "human" (λ _, Ok Sample.broken_renderer)])
    (NoOutputOnly (mkExc "AttributeError" "output_only"))
  = ([ANewOutput "json"; ANewOutput "json"], Done (IsRenderer Sample.json)).
Proof.
  apply (select_output_last_match
           (mkNamespace false None None "json" false)
           (NoOutputOnly (mkExc "AttributeError" "output_only"))
           [mkOutputClass "json" (λ _, Ok Sample.broken_renderer)]
           [mkOutputClass "human" (λ _, Ok Sample.broken_renderer)]
           (mkOutputClass "json" (λ _, Ok Sample.json))
           Sample.json (IsRenderer Sample.broken_renderer)).
  - reflexivity.
  - reflexivity.
  - reflexivity.
  - repeat constructor. discriminate.
Defined.
